(** * System Security Monitor: a shallow embedding of [main.py]

    The program is a one-shot report generator: five passes query the
    operating-system inventory (psutil, platform, datetime) and print a
    formatted report.  The embedding makes the inventory an explicit input
    ([Inventory]), standard output an explicit list of printed lines, and
    Python exceptions an explicit outcome. *)

From Stdlib Require Import String Ascii List ZArith QArith Qround Qpower Qabs.
From Stdlib Require Import Bool Lia Lqa Sorted Permutation DecimalString OrderedTypeEx.
From Stdlib Require Import SpecFloat.
Import ListNotations.

Close Scope Q_scope.
Open Scope nat_scope.
Open Scope string_scope.
Open Scope list_scope.

(* ================================================================== *)
(** ** Exceptions and the printing monad *)

(** The exception classes the program distinguishes.  All of them derive
    from [Exception]; the payload is the text of [str(e)]. *)
Inductive exn : Type :=
| NoSuchProcess (msg : string)
| AccessDenied (msg : string)
| AttributeError (msg : string)
| OtherException (msg : string).

Definition exn_str (e : exn) : string :=
  match e with
  | NoSuchProcess m | AccessDenied m | AttributeError m | OtherException m => m
  end.

(** Result of evaluating a Python expression or call. *)
Inductive outcome (A : Type) : Type :=
| Ok (a : A)
| Raise (e : exn).
Arguments Ok {A} a.
Arguments Raise {A} e.

(** A computation that prints: the lines handed to [print], in order, and
    how the computation ended.  Lines printed before an exception stay
    printed. *)
Definition Pass (A : Type) : Type := (list string * outcome A)%type.

Definition ret {A} (a : A) : Pass A := ([], Ok a).

Definition bind {A B} (m : Pass A) (f : A -> Pass B) : Pass B :=
  match m with
  | (o1, Raise e) => (o1, Raise e)
  | (o1, Ok a) => let (o2, r) := f a in (o1 ++ o2, r)
  end.

Definition print (s : string) : Pass unit := ([s], Ok tt).

(** Evaluating a call into the inventory: no output, the recorded outcome. *)
Definition call {A} (r : outcome A) : Pass A := ([], r).

(** [try: m / except Exception as e: h e]. *)
Definition try_except {A} (m : Pass A) (h : exn -> Pass A) : Pass A :=
  match m with
  | (o1, Raise e) => let (o2, r) := h e in (o1 ++ o2, r)
  | (o1, Ok a) => (o1, Ok a)
  end.

Definition printed {A} (m : Pass A) : list string := fst m.
Definition result {A} (m : Pass A) : outcome A := snd m.

Declare Scope pass_scope.
Delimit Scope pass_scope with pass.
Notation "x <- m ;; k" := (bind m (fun x => k))
  (at level 61, m at next level, right associativity) : pass_scope.
Notation "m ;; k" := (bind m (fun _ => k))
  (at level 61, right associativity) : pass_scope.

(** [for x in l: body x], with [body] printing and possibly raising. *)
Fixpoint for_each {A} (l : list A) (body : A -> Pass unit) : Pass unit :=
  match l with
  | [] => ret tt
  | x :: l' => bind (body x) (fun _ => for_each l' body)
  end.

(* ================================================================== *)
(** ** Python built-ins used by the program *)

Module Py.

(** [str(n)] for an [int]. *)
Definition str_int (n : Z) : string := NilZero.string_of_int (Z.to_int n).

(** [str(x)] for a value that is an [int] or [None]. *)
Definition str_opt_int (x : option Z) : string :=
  match x with Some n => str_int n | None => "None" end.

(** [str(x)] for a value that is a [str] or [None]. *)
Definition str_opt_str (x : option string) : string :=
  match x with Some s => s | None => "None" end.

(** [s * n]. *)
Fixpoint str_mul (s : string) (n : nat) : string :=
  match n with O => "" | S n' => s ++ str_mul s n' end.

(** [s.rjust(w)]: the padding of the format specification [:5d]. *)
Definition rjust (w : nat) (s : string) : string :=
  str_mul " " (w - String.length s) ++ s.

(** [c.lower()] on one character.  Strings are sequences of bytes (UTF-8);
    the ASCII capitals are mapped to their small letters and every other
    byte is kept, which is [str.lower] on ASCII text. *)
Definition lower_ascii (c : ascii) : ascii :=
  let n := nat_of_ascii c in
  if (65 <=? n)%nat && (n <=? 90)%nat then ascii_of_nat (n + 32) else c.

Fixpoint lower (s : string) : string :=
  match s with
  | EmptyString => EmptyString
  | String c s' => String (lower_ascii c) (lower s')
  end.

(** [k in s] for strings: [k] occurs in [s] as a contiguous substring. *)
Fixpoint contains (k s : string) : bool :=
  prefix k s ||
  match s with
  | EmptyString => false
  | String _ s' => contains k s'
  end.

(** [bool(x)] for [x] an [int] or [None]: [None] and [0] are false. *)
Definition truthy_pid (x : option Z) : bool :=
  match x with
  | None => false
  | Some n => negb (n =? 0)%Z
  end.

(** *** Floats

    A Python float is modelled by the rational number it denotes.  An
    operation computes the exact rational result and rounds it to the
    nearest number with a 53-bit significand, ties to even, as IEEE 754
    binary64 does.  The exponent range is not bounded: the quotients and
    sums of byte counters are far from overflow and from the subnormal
    range. *)

(** Nearest integer, ties to even. *)
Definition rne (q : Q) : Z :=
  let f := Qfloor q in
  match (q - inject_Z f ?= 1 # 2)%Q with
  | Lt => f
  | Gt => (f + 1)%Z
  | Eq => if Z.even f then f else (f + 1)%Z
  end.

(** For [0 < q]: the exponent [e] with [2^e <= q < 2^(e+1)]. *)
Definition binade (q : Q) : Z :=
  let e0 := (Z.log2 (Qnum q) - Z.log2 (Zpos (Qden q)))%Z in
  if Qle_bool (2 ^ e0)%Q q then e0 else (e0 - 1)%Z.

Definition round53_pos (q : Q) : Q :=
  let e := (binade q - 52)%Z in
  (inject_Z (rne (q / 2 ^ e)) * 2 ^ e)%Q.

Definition round53 (q : Q) : Q :=
  match (q ?= 0)%Q with
  | Eq => 0%Q
  | Gt => Qred (round53_pos q)
  | Lt => Qred (- round53_pos (- q))
  end.

(** [a / b] on two [int]s (true division, correctly rounded). *)
Definition truediv (a b : Z) : Q := round53 (inject_Z a / inject_Z b).

(** [x + y] on two floats. *)
Definition fadd (x y : Q) : Q := round53 (x + y).

(** [x < y] on two floats. *)
Definition flt (x y : Q) : bool := negb (Qle_bool y x).

(** Two decimal digits of [n], for [0 <= n < 100]. *)
Definition two_digits (n : Z) : string :=
  str_int (n / 10) ++ str_int (n mod 10).

(** The number of hundredths [format(x, '.2f')] shows for [0 <= x]. *)
Definition hundredths (x : Q) : Z := rne (Qabs x * 100)%Q.

(** [format(x, '.2f')]: the decimal expansion of the float rounded to two
    places, ties to even on the exact value of the float. *)
Definition fmt_2f (x : Q) : string :=
  let c := hundredths x in
  (if Qle_bool 0%Q x then "" else "-") ++
  str_int (c / 100) ++ "." ++ two_digits (c mod 100).

(** [sorted(l, key=...)], and [sorted(l, key=..., reverse=True)].  Python's
    sort is stable in both directions, which determines its result
    ([stable_sort_unique] below); the model is the stable insertion sort.
    [before y x] holds when [y] has to come strictly before [x]. *)
Section Sorted.
Context {A : Type} (before : A -> A -> bool).

Fixpoint insert (x : A) (l : list A) : list A :=
  match l with
  | [] => [x]
  | y :: l' => if before y x then y :: insert x l' else x :: y :: l'
  end.

Fixpoint sorted (l : list A) : list A :=
  match l with
  | [] => []
  | x :: l' => insert x (sorted l')
  end.

(** [a] may stand before [b]: [b] does not have to come first. *)
Definition may_precede (a b : A) : Prop := before b a = false.

(** Neither of [x] and [y] has to come first: the order does not tell
    them apart. *)
Definition same_rank (x y : A) : bool := negb (before x y) && negb (before y x).

End Sorted.

End Py.

Import Py.
Local Open Scope pass_scope.

(* ================================================================== *)
(** ** The inventory: what the operating system answers *)

(** [psutil.net_io_counters()]. *)
Record NetIO : Type := {
  bytes_sent : Z;
  bytes_recv : Z;
  packets_sent : Z;
  packets_recv : Z;
  errin : Z;
  errout : Z
}.

(** An endpoint [addr(ip, port)]. *)
Record Addr : Type := { ip : string; port : Z }.

(** One entry of [psutil.net_connections(kind='inet')].  [laddr] and
    [raddr] are [None] for the empty tuple psutil gives for an absent
    endpoint.  [owner] records what [psutil.Process(conn.pid).name()]
    answers at the moment the pass asks for it. *)
Record Conn : Type := {
  status : string;
  pid : option Z;
  laddr : option Addr;
  raddr : option Addr;
  owner : outcome string
}.

(** [proc.info] of one process yielded by [psutil.process_iter]; a field
    psutil could not read is [None]. *)
Record PInfo : Type := {
  info_pid : Z;
  info_name : option string;
  info_username : option string
}.

(** A process with what [proc.io_counters()] answers: the cumulative
    [(read_bytes, write_bytes)], or an exception. *)
Record Proc : Type := {
  info : PInfo;
  io_counters : outcome (Z * Z)
}.

(** Every call of one run.  The two passes over the connection table ask
    the operating system separately. *)
Record Inventory : Type := {
  platform_system : outcome string;
  platform_release : outcome string;
  platform_machine : outcome string;
  platform_processor : outcome string;
  datetime_now : outcome string;
  net_io_counters : outcome NetIO;
  net_connections_active : outcome (list Conn);
  net_connections_listen : outcome (list Conn);
  process_iter : outcome (list Proc)
}.

(* ================================================================== *)
(** ** The report *)

(** ["=" * 60] *)
Definition banner : string := str_mul "=" 60.

(** *** System information *)

Definition get_system_info (inv : Inventory) : Pass unit :=
  print banner ;;
  print "SYSTEM INFORMATION" ;;
  print banner ;;
  (sys <- call (platform_system inv) ;;
   rel <- call (platform_release inv) ;;
   print ("System: " ++ sys ++ " " ++ rel)) ;;
  (m <- call (platform_machine inv) ;;
   print ("Machine: " ++ m)) ;;
  (p <- call (platform_processor inv) ;;
   print ("Processor: " ++ p)) ;;
  (t <- call (datetime_now inv) ;;
   print ("Scan Time: " ++ t)) ;;
  print "".

(** *** Network statistics *)

(** [f"{b / 1_000_000:.2f}"] *)
Definition format_mb (b : Z) : string := fmt_2f (truediv b 1000000).

Definition get_network_stats (inv : Inventory) : Pass unit :=
  print banner ;;
  print "NETWORK STATISTICS" ;;
  print banner ;;
  net_io <- call (net_io_counters inv) ;;
  print ("Bytes Sent:     " ++ format_mb (bytes_sent net_io) ++ " MB") ;;
  print ("Bytes Received: " ++ format_mb (bytes_recv net_io) ++ " MB") ;;
  print ("Packets Sent:   " ++ str_int (packets_sent net_io)) ;;
  print ("Packets Recv:   " ++ str_int (packets_recv net_io)) ;;
  print ("Errors In:      " ++ str_int (errin net_io)) ;;
  print ("Errors Out:     " ++ str_int (errout net_io)) ;;
  print "".

(** *** Active connections *)

(** An element of [connection_data]. *)
Record ConnData : Type := {
  cd_process : string;
  cd_pid : option Z;
  cd_local : string;
  cd_remote : string;
  cd_status : string
}.

(** [f"{a.ip}:{a.port}" if a else "N/A"] *)
Definition format_addr (a : option Addr) : string :=
  match a with
  | Some a => ip a ++ ":" ++ str_int (port a)
  | None => "N/A"
  end.

(** [psutil.Process(conn.pid) if conn.pid else None], then
    [process.name() if process else "Unknown"]. *)
Definition process_name_of (conn : Conn) : outcome string :=
  if truthy_pid (pid conn) then owner conn else Ok "Unknown".

(** The first loop: build [connection_data].  A failed lookup with
    [NoSuchProcess] or [AccessDenied] skips the connection; any other
    exception leaves the loop. *)
Fixpoint collect_connections (connections : list Conn) (connection_data : list ConnData)
  : outcome (list ConnData) :=
  match connections with
  | [] => Ok connection_data
  | conn :: rest =>
      if String.eqb (status conn) "ESTABLISHED" then
        match process_name_of conn with
        | Ok process_name =>
            collect_connections rest
              (connection_data ++
                 [ {| cd_process := process_name;
                      cd_pid := pid conn;
                      cd_local := format_addr (laddr conn);
                      cd_remote := format_addr (raddr conn);
                      cd_status := status conn |} ])
        | Raise (NoSuchProcess _) | Raise (AccessDenied _) =>
            collect_connections rest connection_data
        | Raise e => Raise e
        end
      else collect_connections rest connection_data
  end.

(** [process_connections]: a dictionary from process name to the list of
    its connections, in insertion order of the keys. *)
Definition Groups : Type := list (string * list ConnData).

(** [d[k].append(v)] on a [defaultdict(list)]. *)
Fixpoint dict_append (d : Groups) (k : string) (v : ConnData) : Groups :=
  match d with
  | [] => [(k, [v])]
  | (k', vs) :: d' =>
      if String.eqb k k' then (k', vs ++ [v]) :: d'
      else (k', vs) :: dict_append d' k v
  end.

(** The second loop. *)
Definition group_connections (connection_data : list ConnData) : Groups :=
  fold_left (fun d conn => dict_append d (cd_process conn) conn) connection_data [].

(** [sorted(process_connections.items())]: the keys of a dictionary are
    distinct, so the comparison of two items is the comparison of their
    keys. *)
Definition sorted_items (d : Groups) : Groups :=
  sorted (fun y x => String.ltb (fst y) (fst x)) d.

(** [conns[0]['pid']] of a group; a group is never empty. *)
Definition first_pid (conns : list ConnData) : option Z :=
  match conns with
  | c :: _ => cd_pid c
  | [] => None
  end.

Definition print_group (item : string * list ConnData) : Pass unit :=
  let (process_name, conns) := item in
  print (String "010" "[" ++ process_name ++ "] (PID: " ++ str_opt_int (first_pid conns) ++ ")") ;;
  for_each (firstn 5 conns) (fun conn =>
    print ("  Local: " ++ cd_local conn ++ " -> Remote: " ++ cd_remote conn)) ;;
  if (5 <? length conns)%nat then
    print ("  ... and " ++ str_int (Z.of_nat (length conns) - 5) ++ " more connections")
  else ret tt.

(** The part of the pass after [connection_data] is built. *)
Definition print_connections (connection_data : list ConnData) : Pass unit :=
  for_each (sorted_items (group_connections connection_data)) print_group ;;
  print (String "010" "Total active connections: "
           ++ str_int (Z.of_nat (length connection_data))) ;;
  print "".

Definition monitor_network_connections (inv : Inventory) : Pass unit :=
  print banner ;;
  print "ACTIVE NETWORK CONNECTIONS" ;;
  print banner ;;
  connections <- call (net_connections_active inv) ;;
  connection_data <- call (collect_connections connections []) ;;
  print_connections connection_data.

(** *** Listening ports *)

(** An element of [listening]. *)
Record Listening : Type := {
  l_process : string;
  l_pid : option Z;
  l_port : Z;
  l_address : string
}.

(** The loop that builds [listening].  The process is looked up first;
    [conn.laddr.port] on an absent local address is an [AttributeError],
    which the handler of the loop does not catch. *)
Fixpoint collect_listening (connections : list Conn) (listening : list Listening)
  : outcome (list Listening) :=
  match connections with
  | [] => Ok listening
  | conn :: rest =>
      if String.eqb (status conn) "LISTEN" then
        match process_name_of conn with
        | Ok process_name =>
            match laddr conn with
            | Some a =>
                collect_listening rest
                  (listening ++
                     [ {| l_process := process_name;
                          l_pid := pid conn;
                          l_port := port a;
                          l_address := ip a |} ])
            | None => Raise (AttributeError "'tuple' object has no attribute 'port'")
            end
        | Raise (NoSuchProcess _) | Raise (AccessDenied _) =>
            collect_listening rest listening
        | Raise e => Raise e
        end
      else collect_listening rest listening
  end.

(** [sorted(listening, key=lambda x: x['port'])] *)
Definition sorted_by_port (listening : list Listening) : list Listening :=
  sorted (fun y x => (l_port y <? l_port x)%Z) listening.

Definition listening_line (item : Listening) : string :=
  "Port " ++ rjust 5 (str_int (l_port item)) ++ " - " ++ l_process item
    ++ " (PID: " ++ str_opt_int (l_pid item) ++ ") on " ++ l_address item.

Definition print_listening (listening : list Listening) : Pass unit :=
  for_each (sorted_by_port listening) (fun item => print (listening_line item)) ;;
  print (String "010" "Total listening ports: " ++ str_int (Z.of_nat (length listening))) ;;
  print "".

Definition check_listening_ports (inv : Inventory) : Pass unit :=
  print banner ;;
  print "LISTENING PORTS (Programs waiting for connections)" ;;
  print banner ;;
  connections <- call (net_connections_listen inv) ;;
  listening <- call (collect_listening connections []) ;;
  print_listening listening.

(** *** Process analysis *)

Definition suspicious_keywords : list string :=
  ["miner"; "crypto"; "hack"; "keylog"; "trojan"; "rat"; "backdoor"].

(** [any(keyword in proc_name_lower for keyword in suspicious_keywords)] *)
Definition any_keyword (proc_name_lower : string) : bool :=
  existsb (fun keyword => contains keyword proc_name_lower) suspicious_keywords.

(** An element of [high_network_processes]. *)
Record HighNet : Type := {
  h_name : string;
  h_pid : Z;
  read_mb : Q;
  write_mb : Q
}.

(** The two lists the loop fills. *)
Record Scan : Type := {
  suspicious_processes : list PInfo;
  high_network_processes : list HighNet
}.

(** The inner [try]: read the counters and classify; [AccessDenied] and
    [AttributeError] are passed over. *)
Definition check_network_usage (proc : Proc) (name : string) (high : list HighNet)
  : outcome (list HighNet) :=
  match io_counters proc with
  | Ok (read_bytes, write_bytes) =>
      if (10000000 <? read_bytes)%Z || (10000000 <? write_bytes)%Z then
        Ok (high ++ [ {| h_name := name;
                         h_pid := info_pid (info proc);
                         read_mb := truediv read_bytes 1000000;
                         write_mb := truediv write_bytes 1000000 |} ])
      else Ok high
  | Raise (AccessDenied _) | Raise (AttributeError _) => Ok high
  | Raise e => Raise e
  end.

(** One iteration of the loop over the processes.  The name check comes
    first, so what it appended stays when the counters fail.  A name that
    is [None] has no [lower]: the [AttributeError] is not among the
    exceptions the outer handler catches. *)
Definition scan_process (st : Scan) (proc : Proc) : outcome Scan :=
  let pinfo := info proc in
  match info_name pinfo with
  | None => Raise (AttributeError "'NoneType' object has no attribute 'lower'")
  | Some name =>
      let proc_name_lower := lower name in
      let suspicious :=
        if any_keyword proc_name_lower
        then suspicious_processes st ++ [pinfo]
        else suspicious_processes st in
      match check_network_usage proc name (high_network_processes st) with
      | Ok high =>
          Ok {| suspicious_processes := suspicious; high_network_processes := high |}
      | Raise (NoSuchProcess _) | Raise (AccessDenied _) =>
          Ok {| suspicious_processes := suspicious;
                high_network_processes := high_network_processes st |}
      | Raise e => Raise e
      end
  end.

Fixpoint scan_processes (procs : list Proc) (st : Scan) : outcome Scan :=
  match procs with
  | [] => Ok st
  | proc :: rest =>
      match scan_process st proc with
      | Ok st' => scan_processes rest st'
      | Raise e => Raise e
      end
  end.

(** [sorted(high, key=lambda x: x['read_mb'] + x['write_mb'], reverse=True)] *)
Definition usage_key (x : HighNet) : Q := fadd (read_mb x) (write_mb x).

Definition sorted_by_usage (high : list HighNet) : list HighNet :=
  sorted (fun y x => flt (usage_key x) (usage_key y)) high.

(** The entries the report shows: [sorted(...)[:10]]. *)
Definition top_network (high : list HighNet) : list HighNet :=
  firstn 10 (sorted_by_usage high).

Definition print_suspicious (suspicious : list PInfo) : Pass unit :=
  match suspicious with
  | [] => print (String "010" "✓ No obviously suspicious process names detected")
  | _ :: _ =>
      print (String "010" "⚠️  SUSPICIOUS PROCESS NAMES DETECTED:") ;;
      for_each suspicious (fun proc =>
        print ("  - " ++ str_opt_str (info_name proc) ++ " (PID: " ++ str_int (info_pid proc)
                 ++ ", User: " ++ str_opt_str (info_username proc) ++ ")"))
  end.

Definition print_high_network (high : list HighNet) : Pass unit :=
  match high with
  | [] => ret tt
  | _ :: _ =>
      print (String "010" "📊 HIGH NETWORK USAGE PROCESSES:") ;;
      for_each (top_network high) (fun proc =>
        print ("  - " ++ h_name proc ++ " (PID: " ++ str_int (h_pid proc) ++ ")") ;;
        print ("    Read: " ++ fmt_2f (read_mb proc) ++ " MB, Write: "
                 ++ fmt_2f (write_mb proc) ++ " MB"))
  end.

Definition check_suspicious_processes (inv : Inventory) : Pass unit :=
  print banner ;;
  print "RUNNING PROCESSES ANALYSIS" ;;
  print banner ;;
  procs <- call (process_iter inv) ;;
  st <- call (scan_processes procs
                {| suspicious_processes := []; high_network_processes := [] |}) ;;
  print_suspicious (suspicious_processes st) ;;
  print_high_network (high_network_processes st) ;;
  print "".

(** *** The entry point *)

Definition recommendations : Pass unit :=
  print banner ;;
  print "RECOMMENDATIONS:" ;;
  print banner ;;
  print "1. Review any suspicious process names or unfamiliar programs" ;;
  print "2. Check listening ports - ensure you recognize all services" ;;
  print "3. Investigate any unexpected high network usage" ;;
  print "4. Use Task Manager to see startup programs (Ctrl+Shift+Esc)" ;;
  print "5. Run a full antivirus/malware scan with updated definitions" ;;
  print "6. Check Windows Firewall settings and rules" ;;
  print (String "010" "⚠️  NOTE: This script requires administrator privileges for") ;;
  print "   complete process information. Run as admin for best results." ;;
  print banner.

(** The five passes, in the order [main] runs them. *)
Definition passes (inv : Inventory) : list (Pass unit) :=
  [ get_system_info inv;
    get_network_stats inv;
    monitor_network_connections inv;
    check_listening_ports inv;
    check_suspicious_processes inv ].

(** The body of the [try] of [main]. *)
Definition report (inv : Inventory) : Pass unit :=
  get_system_info inv ;;
  get_network_stats inv ;;
  monitor_network_connections inv ;;
  check_listening_ports inv ;;
  check_suspicious_processes inv ;;
  recommendations.

(** The handler of [main]: [except Exception as e]. *)
Definition report_error (e : exn) : Pass unit :=
  print (String "010" "❌ Error during monitoring: " ++ exn_str e) ;;
  print "Try running this script as administrator for full access.".

Definition main (inv : Inventory) : Pass unit :=
  print (String "010" "🔍 SYSTEM SECURITY MONITOR" ++ String "010" "") ;;
  try_except (report inv) report_error.

(* ================================================================== *)
(** * Vocabulary of the specification *)

(** The connections of one process, in the order they were recorded. *)
Definition members (name : string) (connection_data : list ConnData) : list ConnData :=
  filter (fun c => String.eqb (cd_process c) name) connection_data.

(** The keys of a dictionary after one more key is used. *)
Definition add_key (ks : list string) (k : string) : list string :=
  if existsb (String.eqb k) ks then ks else ks ++ [k].

(** The process names of the connections, each once, in first-seen order. *)
Definition first_seen (connection_data : list ConnData) : list string :=
  fold_left (fun ks c => add_key ks (cd_process c)) connection_data [].

(** The lines of the Active Connections section. *)
Definition group_header (name : string) (first_member_pid : option Z) : string :=
  String "010" "[" ++ name ++ "] (PID: " ++ str_opt_int first_member_pid ++ ")".

Definition connection_line (c : ConnData) : string :=
  "  Local: " ++ cd_local c ++ " -> Remote: " ++ cd_remote c.

Definition more_line (n : nat) : string :=
  "  ... and " ++ str_int (Z.of_nat n) ++ " more connections".

Definition total_connections_line (n : nat) : string :=
  String "010" "Total active connections: " ++ str_int (Z.of_nat n).

(** What the report shows for the group of one process: the name with the
    process id of the first member, at most five connections, and the
    number of the connections left out when there are more than five. *)
Definition group_lines (name : string) (conns : list ConnData) : list string :=
  match conns with
  | [] => []
  | first_member :: _ =>
      group_header name (cd_pid first_member)
      :: map connection_line (firstn 5 conns)
      ++ (if (5 <? length conns)%nat then [more_line (length conns - 5)] else [])
  end.

(** Sample data: seven connections of "chrome" and two of "ssh". *)
Definition sample_conn (name : string) (p : Z) (local_port : Z) : ConnData :=
  {| cd_process := name; cd_pid := Some p;
     cd_local := "10.0.0.5:" ++ str_int local_port;
     cd_remote := "93.184.216.34:443";
     cd_status := "ESTABLISHED" |}.

Definition sample_connection_data : list ConnData :=
  [ sample_conn "ssh" 22 50001;
    sample_conn "chrome" 4000 40001; sample_conn "chrome" 4000 40002;
    sample_conn "chrome" 4001 40003; sample_conn "chrome" 4000 40004;
    sample_conn "chrome" 4002 40005; sample_conn "chrome" 4000 40006;
    sample_conn "chrome" 4000 40007;
    sample_conn "ssh" 23 50002 ].

(** The lines of the entry point. *)
Definition title_line : string :=
  String "010" "🔍 SYSTEM SECURITY MONITOR" ++ String "010" "".

Definition error_line (e : exn) : string :=
  String "010" "❌ Error during monitoring: " ++ exn_str e.

Definition hint_line : string :=
  "Try running this script as administrator for full access.".

(** The titles of the six sections, in the order of the report. *)
Definition section_titles : list string :=
  [ "SYSTEM INFORMATION";
    "NETWORK STATISTICS";
    "ACTIVE NETWORK CONNECTIONS";
    "LISTENING PORTS (Programs waiting for connections)";
    "RUNNING PROCESSES ANALYSIS";
    "RECOMMENDATIONS:" ].

(** A line that is the title of no section but [own]. *)
Definition only_title (own : string) (l : string) : Prop :=
  In l section_titles -> l = own.

(** A pass that ran to its end. *)
Definition completed (p : Pass unit) : Prop := result p = Ok tt.

(** The sections after System Summary all appear in the report. *)
Definition remaining_sections_produced (inv : Inventory) : Prop :=
  Forall (fun t => In t (printed (main inv))) (skipn 1 section_titles).

(** An inventory whose platform query fails; everything else answers. *)
Definition unavailable_platform : Inventory :=
  {| platform_system := Raise (OtherException "platform unavailable");
     platform_release := Ok "6.1.0";
     platform_machine := Ok "x86_64";
     platform_processor := Ok "x86_64";
     datetime_now := Ok "2024-05-01 12:00:00.000000";
     net_io_counters :=
       Ok {| bytes_sent := 0; bytes_recv := 0; packets_sent := 0;
             packets_recv := 0; errin := 0; errout := 0 |};
     net_connections_active := Ok [];
     net_connections_listen := Ok [];
     process_iter := Ok [] |}.

(** An inventory that answers every query of the first four passes and
    fails while Process Analysis reads the counters of a process. *)
Definition process_fault_inventory : Inventory :=
  {| platform_system := Ok "Linux";
     platform_release := Ok "6.1.0";
     platform_machine := Ok "x86_64";
     platform_processor := Ok "x86_64";
     datetime_now := Ok "2024-05-01 12:00:00.000000";
     net_io_counters :=
       Ok {| bytes_sent := 0; bytes_recv := 0; packets_sent := 0;
             packets_recv := 0; errin := 0; errout := 0 |};
     net_connections_active := Ok [];
     net_connections_listen := Ok [];
     process_iter :=
       Ok [ {| info := {| info_pid := 1; info_name := Some "systemd";
                          info_username := Some "root" |};
               io_counters := Raise (OtherException "inventory failure") |} ] |}.


Definition is_suspicious (pinfo : PInfo) : bool :=
  match info_name pinfo with
  | Some name => any_keyword (lower name)
  | None => false
  end.

(** The counters are above the threshold of ten million bytes. *)
Definition above_threshold (read_bytes write_bytes : Z) : Prop :=
  (10000000 < read_bytes \/ 10000000 < write_bytes)%Z.

(** The entry of a process in the high-network list. *)
Definition high_entry (proc : Proc) (name : string) (read_bytes write_bytes : Z) : HighNet :=
  {| h_name := name;
     h_pid := info_pid (info proc);
     read_mb := truediv read_bytes 1000000;
     write_mb := truediv write_bytes 1000000 |}.

(** What a process adds to the high-network list. *)
Definition network_entries (proc : Proc) : list HighNet :=
  match info_name (info proc), io_counters proc with
  | Some name, Ok (read_bytes, write_bytes) =>
      if (10000000 <? read_bytes)%Z || (10000000 <? write_bytes)%Z
      then [high_entry proc name read_bytes write_bytes]
      else []
  | _, _ => []
  end.

(** The state of the loop before the first process. *)
Definition no_findings : Scan :=
  {| suspicious_processes := []; high_network_processes := [] |}.

(** A process with the given name, user and answer of [io_counters]. *)
Definition sample_proc (p : Z) (name : string) (io : outcome (Z * Z)) : Proc :=
  {| info := {| info_pid := p; info_name := Some name; info_username := Some "alice" |};
     io_counters := io |}.



(** The lines of the Listening Ports section. *)
Definition total_listening_line (n : nat) : string :=
  String "010" "Total listening ports: " ++ str_int (Z.of_nat n).

Definition sample_listener (name : string) (p : Z) (pt : Z) : Listening :=
  {| l_process := name; l_pid := Some p; l_port := pt; l_address := "0.0.0.0" |}.

Definition sample_listening : list Listening :=
  [ sample_listener "nginx" 801 443;
    sample_listener "java" 802 8080;
    sample_listener "sshd" 803 22 ].

(** The decimal numeral of [n] has at most five digits; the same for the
    [count] numbers from [lo] on. *)
Definition numeral_fits (n : Z) : bool := (String.length (str_int n) <=? 5)%nat.

Fixpoint numerals_fit_from (lo : Z) (count : nat) : bool :=
  match count with
  | O => true
  | S k => numeral_fits lo && numerals_fit_from (lo + 1) k
  end.

(** The number of ports. *)
Definition port_count : nat := Nat.pow 2 16.

(** The lines of the high-network block. *)
Definition usage_header : string := String "010" "📊 HIGH NETWORK USAGE PROCESSES:".

Definition usage_name_line (proc : HighNet) : string :=
  "  - " ++ h_name proc ++ " (PID: " ++ str_int (h_pid proc) ++ ")".

Definition usage_figures_line (proc : HighNet) : string :=
  "    Read: " ++ fmt_2f (read_mb proc) ++ " MB, Write: " ++ fmt_2f (write_mb proc) ++ " MB".

(** Fifteen processes above the threshold, with three pairs of equal
    usage (pids 4 and 6, 2 and 10, 3 and 9), and the list the scan makes
    of them. *)
Definition busy_proc (p read_bytes write_bytes : Z) : Proc :=
  sample_proc p "worker" (Ok (read_bytes, write_bytes)).

Definition sample_busy_procs : list Proc :=
  [ busy_proc 1 11000000 0;        busy_proc 2 25000000 5000000;
    busy_proc 3 20000000 0;        busy_proc 4 0 90000000;
    busy_proc 5 12000000 500000;   busy_proc 6 45000000 45000000;
    busy_proc 7 10000001 0;        busy_proc 8 70000000 0;
    busy_proc 9 0 20000000;        busy_proc 10 15000000 15000000;
    busy_proc 11 100000000 0;      busy_proc 12 13000000 0;
    busy_proc 13 60000000 1;       busy_proc 14 10500000 0;
    busy_proc 15 50000000 0 ].

Definition sample_high : list HighNet := flat_map network_entries sample_busy_procs.

(** What the passes record for a connection without an owning process. *)
Definition unknown_connection (conn : Conn) : ConnData :=
  {| cd_process := "Unknown";
     cd_pid := None;
     cd_local := format_addr (laddr conn);
     cd_remote := format_addr (raddr conn);
     cd_status := "ESTABLISHED" |}.

Definition unknown_listener (a : Addr) : Listening :=
  {| l_process := "Unknown"; l_pid := None; l_port := port a; l_address := ip a |}.

(** Sequencing two loops that append to a list. *)
Definition append_outcomes {A} (r1 r2 : outcome (list A)) : outcome (list A) :=
  match r1 with
  | Ok d1 => match r2 with Ok d2 => Ok (d1 ++ d2) | Raise e => Raise e end
  | Raise e => Raise e
  end.

(** A connection table with a socket that has no owning process and one
    whose owner cannot be looked up. *)
Definition sample_owned : Conn :=
  {| status := "ESTABLISHED"; pid := Some 4000%Z;
     laddr := Some {| ip := "10.0.0.5"; port := 40001 |};
     raddr := Some {| ip := "93.184.216.34"; port := 443 |};
     owner := Ok "chrome" |}.

Definition sample_unowned : Conn :=
  {| status := "ESTABLISHED"; pid := None;
     laddr := Some {| ip := "10.0.0.5"; port := 40002 |};
     raddr := Some {| ip := "10.0.0.9"; port := 22 |};
     owner := Raise (NoSuchProcess "no owner") |}.

Definition sample_denied : Conn :=
  {| status := "ESTABLISHED"; pid := Some 77%Z;
     laddr := Some {| ip := "10.0.0.5"; port := 40003 |};
     raddr := None;
     owner := Raise (AccessDenied "psutil.AccessDenied (pid=77)") |}.

Definition sample_records : list ConnData :=
  [ {| cd_process := "chrome"; cd_pid := Some 4000%Z;
       cd_local := "10.0.0.5:40001"; cd_remote := "93.184.216.34:443";
       cd_status := "ESTABLISHED" |};
    {| cd_process := "Unknown"; cd_pid := None;
       cd_local := "10.0.0.5:40002"; cd_remote := "10.0.0.9:22";
       cd_status := "ESTABLISHED" |} ].

(** The same operations in the IEEE 754 binary64 format of the standard
    library ([SpecFloat], precision 53, maximal exponent 1024), to compare
    the model of the floats with. *)
Definition ieee_of_int (z : Z) : spec_float := binary_normalize 53 1024 z 0 false.

Definition ieee_value (f : spec_float) : Q :=
  match f with
  | S754_finite s m e => ((if s then -1 else 1) * inject_Z (Z.pos m) * 2 ^ e)%Q
  | _ => 0%Q
  end.

Definition ieee_megabytes (b : Z) : spec_float :=
  SFdiv 53 1024 (ieee_of_int b) (ieee_of_int 1000000).

Definition agrees_on_division (b : Z) : bool :=
  Qeq_bool (ieee_value (ieee_megabytes b)) (truediv b 1000000).

Definition agrees_on_sum (rw : Z * Z) : bool :=
  Qeq_bool
    (ieee_value (SFadd 53 1024 (ieee_megabytes (fst rw)) (ieee_megabytes (snd rw))))
    (fadd (truediv (fst rw) 1000000) (truediv (snd rw) 1000000)).


(** ** Further vocabulary: the loops over the connection table *)

(** The lookup of the owner is made and fails in one of the two ways the
    loops pass over. *)
Definition lookup_denied (conn : Conn) : Prop :=
  truthy_pid (pid conn) = true
  /\ match owner conn with
     | Raise (NoSuchProcess _) | Raise (AccessDenied _) => True
     | _ => False
     end.

(** What the passes record for a connection of the process with id [0]. *)
Definition idle_connection (conn : Conn) : ConnData :=
  {| cd_process := "Unknown";
     cd_pid := Some 0%Z;
     cd_local := format_addr (laddr conn);
     cd_remote := format_addr (raddr conn);
     cd_status := "ESTABLISHED" |}.

Definition idle_listener (a : Addr) : Listening :=
  {| l_process := "Unknown"; l_pid := Some 0%Z; l_port := port a; l_address := ip a |}.

(** The exception of [conn.laddr.port] on an absent local address. *)
Definition no_port_error : exn :=
  AttributeError "'tuple' object has no attribute 'port'".

(** A listening socket whose owner cannot be looked up, and one of the
    process with id [0]. *)
Definition sample_listen_denied : Conn :=
  {| status := "LISTEN"; pid := Some 4%Z; laddr := None; raddr := None;
     owner := Raise (AccessDenied "psutil.AccessDenied (pid=4)") |}.

Definition sample_listen_idle : Conn :=
  {| status := "LISTEN"; pid := Some 0%Z;
     laddr := Some {| ip := "0.0.0.0"; port := 445 |}; raddr := None;
     owner := Raise (AccessDenied "psutil.AccessDenied (pid=0)") |}.

Definition sample_listen_unbound : Conn :=
  {| status := "LISTEN"; pid := Some 900%Z; laddr := None; raddr := None;
     owner := Ok "launcher" |}.

Definition sample_time_wait : Conn :=
  {| status := "TIME_WAIT"; pid := None;
     laddr := Some {| ip := "10.0.0.5"; port := 40009 |};
     raddr := Some {| ip := "10.0.0.9"; port := 80 |};
     owner := Ok "" |}.

(** An inventory whose connection table is [connections] in both passes. *)
Definition inventory_with_connections (connections : list Conn) : Inventory :=
  {| platform_system := Ok "Linux";
     platform_release := Ok "6.1.0";
     platform_machine := Ok "x86_64";
     platform_processor := Ok "x86_64";
     datetime_now := Ok "2024-05-01 12:00:00.000000";
     net_io_counters :=
       Ok {| bytes_sent := 0; bytes_recv := 0; packets_sent := 0;
             packets_recv := 0; errin := 0; errout := 0 |};
     net_connections_active := Ok connections;
     net_connections_listen := Ok connections;
     process_iter := Ok [] |}.

(** ** Further vocabulary: process analysis *)

(** The exception of [pinfo['name'].lower()] on a name that is [None]. *)
Definition no_lower_error : exn :=
  AttributeError "'NoneType' object has no attribute 'lower'".

(** The header of the section. *)
Definition process_analysis_header : list string :=
  [banner; "RUNNING PROCESSES ANALYSIS"; banner].




(** A process whose name psutil could not read. *)
Definition nameless_proc : Proc :=
  {| info := {| info_pid := 4; info_name := None; info_username := None |};
     io_counters := Ok (0, 0)%Z |}.

(** An inventory whose process table is [procs]. *)
Definition inventory_with_processes (procs : list Proc) : Inventory :=
  {| platform_system := Ok "Linux";
     platform_release := Ok "6.1.0";
     platform_machine := Ok "x86_64";
     platform_processor := Ok "x86_64";
     datetime_now := Ok "2024-05-01 12:00:00.000000";
     net_io_counters :=
       Ok {| bytes_sent := 0; bytes_recv := 0; packets_sent := 0;
             packets_recv := 0; errin := 0; errout := 0 |};
     net_connections_active := Ok [];
     net_connections_listen := Ok [];
     process_iter := Ok procs |}.

(** ** Further vocabulary: the lines of the report *)

(** The line is the title of a section. *)
Definition is_title (l : string) : bool := existsb (String.eqb l) section_titles.

(** A line of the body of a section: not a title, and not one of the two
    lines of the handler of [main]. *)
Definition plain_line (l : string) : Prop :=
  is_title l = false /\ l <> hint_line /\ forall e, l <> error_line e.

(** The pass prints the header with title [t] and then plain lines only. *)
Definition has_header (p : Pass unit) (t : string) : Prop :=
  exists body, printed p = banner :: t :: banner :: body /\ Forall plain_line body.

(** ** Further vocabulary: the dictionary of the groups *)

(** [d[k]] on the dictionary: the list of the key, empty when the key was
    never used. *)
Fixpoint dict_get (d : Groups) (k : string) : list ConnData :=
  match d with
  | [] => []
  | (k', vs) :: d' => if String.eqb k k' then vs else dict_get d' k
  end.

(** ** Further vocabulary: figures and answers *)

(** At least ten megabytes are shown for the float [x]. *)
Definition shows_ten_or_more (x : Q) : Prop := (10 < x)%Q /\ (1000 <= hundredths x)%Z.


(** The owner lookup is made and raises something the loops do not catch. *)
Definition lookup_faults (conn : Conn) (e : exn) : Prop :=
  truthy_pid (pid conn) = true
  /\ owner conn = Raise e
  /\ match e with
     | AttributeError _ | OtherException _ => True
     | _ => False
     end.

Definition sample_broken_lookup : Conn :=
  {| status := "ESTABLISHED"; pid := Some 99%Z;
     laddr := Some {| ip := "10.0.0.5"; port := 40010 |}; raddr := None;
     owner := Raise (OtherException "[Errno 5] Input/output error") |}.

(** ** Further vocabulary: rounding and the collected records *)

(** The byte count in hundredths of a megabyte, rounded to the nearest,
    halves up. *)
Definition nearest_hundredth (b : Z) : Z := ((b + 5000) / 10000)%Z.

(** What Active Connections records for a connection, if anything. *)
Definition active_record (conn : Conn) : list ConnData :=
  if String.eqb (status conn) "ESTABLISHED" then
    match process_name_of conn with
    | Ok name =>
        [ {| cd_process := name; cd_pid := pid conn;
             cd_local := format_addr (laddr conn);
             cd_remote := format_addr (raddr conn);
             cd_status := "ESTABLISHED" |} ]
    | Raise _ => []
    end
  else [].

(** What Listening Ports records for a connection, if anything. *)
Definition listening_record (conn : Conn) : list Listening :=
  if String.eqb (status conn) "LISTEN" then
    match process_name_of conn, laddr conn with
    | Ok name, Some a =>
        [ {| l_process := name; l_pid := pid conn; l_port := port a; l_address := ip a |} ]
    | _, _ => []
    end
  else [].

(* ================================================================== *)
(** * Properties *)

(** ** The printing monad *)

Lemma bind_ok {A B} (o : list string) (a : A) (f : A -> Pass B) :
  bind (o, Ok a) f = (o ++ printed (f a), result (f a)).
Proof. unfold bind, printed, result. destruct (f a); reflexivity. Qed.

Lemma bind_print {B} (s : string) (f : unit -> Pass B) :
  bind (print s) f = (s :: printed (f tt), result (f tt)).
Proof. unfold print. now rewrite bind_ok. Qed.

Lemma bind_raise {A B} (o : list string) (e : exn) (f : A -> Pass B) :
  bind (o, Raise e) f = (o, Raise e).
Proof. reflexivity. Qed.

Lemma bind_assoc {A B C} (m : Pass A) (f : A -> Pass B) (g : B -> Pass C) :
  bind (bind m f) g = bind m (fun a => bind (f a) g).
Proof.
  destruct m as [o [a|e]]; simpl; [|reflexivity].
  destruct (f a) as [o2 [b|e2]]; simpl; [|reflexivity].
  destruct (g b) as [o3 r3]. now rewrite app_assoc.
Qed.

Lemma bind_ret_r {A} (m : Pass A) : bind m ret = m.
Proof. destruct m as [o [a|e]]; simpl; [rewrite app_nil_r|]; reflexivity. Qed.

Lemma pass_eta {A} (m : Pass A) : m = (printed m, result m).
Proof. now destruct m. Qed.

(** A loop whose body only prints runs to its end and prints the lines of
    its iterations in order. *)
Lemma for_each_ok {A} (body : A -> Pass unit) (l : list A) :
  (forall x, In x l -> result (body x) = Ok tt) ->
  for_each l body = (flat_map (fun x => printed (body x)) l, Ok tt).
Proof.
  induction l as [|x l IH]; intros H; simpl; [reflexivity|].
  rewrite (pass_eta (body x)), (H x (or_introl eq_refl)), bind_ok.
  rewrite IH by (intros; apply H; now right). reflexivity.
Qed.

Lemma for_each_print {A} (g : A -> string) (l : list A) :
  for_each l (fun x => print (g x)) = (map g l, Ok tt).
Proof.
  rewrite for_each_ok by reflexivity.
  f_equal; induction l; simpl; congruence.
Qed.

(** A property of every printed line is kept by sequencing and loops. *)
Lemma Forall_printed_bind {A B} (P : string -> Prop) (m : Pass A) (f : A -> Pass B) :
  Forall P (printed m) -> (forall a, Forall P (printed (f a))) ->
  Forall P (printed (bind m f)).
Proof.
  intros Hm Hf. destruct m as [o [a|e]]; simpl in *; [|assumption].
  specialize (Hf a). destruct (f a) as [o2 r]; simpl in *.
  apply Forall_app; now split.
Qed.

Lemma Forall_printed_for_each {A} (P : string -> Prop) (body : A -> Pass unit) (l : list A) :
  (forall x, Forall P (printed (body x))) ->
  Forall P (printed (for_each l body)).
Proof.
  intros H. induction l as [|x l IH]; simpl; [constructor|].
  apply Forall_printed_bind; auto.
Qed.

(** ** The stable sort *)

Section SortedFacts.
Context {A : Type} (before : A -> A -> bool).

Hypothesis before_asym : forall a b, before a b = true -> before b a = false.
Hypothesis before_cotrans :
  forall a b c, before b a = false -> before c b = false -> before c a = false.

Lemma insert_Permutation (x : A) (l : list A) : Permutation (insert before x l) (x :: l).
Proof.
  induction l as [|y l IH]; simpl; [reflexivity|].
  destruct (before y x); [|reflexivity].
  rewrite IH. apply perm_swap.
Qed.

Lemma sorted_Permutation (l : list A) : Permutation (sorted before l) l.
Proof.
  induction l as [|x l IH]; simpl; [reflexivity|].
  rewrite insert_Permutation. now constructor.
Qed.

Lemma sorted_length (l : list A) : length (sorted before l) = length l.
Proof. apply Permutation_length, sorted_Permutation. Qed.

Lemma insert_StronglySorted (x : A) (l : list A) :
  StronglySorted (may_precede before) l -> StronglySorted (may_precede before) (insert before x l).
Proof.
  induction 1 as [|y l Hs IH Hy]; simpl.
  - repeat constructor.
  - destruct (before y x) eqn:E.
    + constructor; [assumption|].
      apply (Permutation_Forall (Permutation_sym (insert_Permutation x l))).
      constructor; [|assumption]. now apply before_asym.
    + constructor; [now constructor|].
      constructor; [exact E|].
      eapply Forall_impl; [|exact Hy].
      intros z Hz. unfold may_precede in *. eapply before_cotrans; eassumption.
Qed.

Lemma sorted_StronglySorted (l : list A) : StronglySorted (may_precede before) (sorted before l).
Proof.
  induction l; simpl; [constructor|]. now apply insert_StronglySorted.
Qed.

(** Stability: elements the order does not tell apart keep the order they
    had in the input. *)
Lemma StronglySorted_impl (R R' : A -> A -> Prop) (l : list A) :
  (forall a b, R a b -> R' a b) -> StronglySorted R l -> StronglySorted R' l.
Proof.
  intros HR. induction 1 as [|a l Hs IH Ha]; constructor; [assumption|].
  eapply Forall_impl; [|exact Ha]. auto.
Qed.

Lemma filter_insert (P : A -> bool) (x : A) (l : list A) :
  (forall a b, P a = true -> P b = true -> before a b = false) ->
  filter P (insert before x l) = filter P (x :: l).
Proof.
  intros HP. induction l as [|y l IH]; [reflexivity|].
  cbn [insert]. destruct (before y x) eqn:E; [|reflexivity].
  cbn [filter] in *. rewrite IH.
  destruct (P y) eqn:Py, (P x) eqn:Px; try reflexivity.
  rewrite (HP y x Py Px) in E. discriminate.
Qed.

Lemma filter_sorted (P : A -> bool) (l : list A) :
  (forall a b, P a = true -> P b = true -> before a b = false) ->
  filter P (sorted before l) = filter P l.
Proof.
  intros HP. induction l as [|x l IH]; [reflexivity|].
  cbn [sorted]. rewrite filter_insert by assumption.
  cbn [filter]. now rewrite IH.
Qed.

Lemma same_rank_refl (x : A) : same_rank before x x = true.
Proof.
  unfold same_rank. destruct (before x x) eqn:E; [|reflexivity].
  now rewrite (before_asym _ _ E) in E.
Qed.

Lemma sorted_stable (x : A) (l : list A) :
  filter (same_rank before x) (sorted before l) = filter (same_rank before x) l.
Proof.
  apply filter_sorted. unfold same_rank. intros a b Ha Hb.
  apply andb_prop in Ha as [Hxa Hax], Hb as [Hxb Hbx].
  rewrite negb_true_iff in *. eapply before_cotrans; eassumption.
Qed.

(** A sorted list is determined by the order in which it holds the
    elements of each rank: there is one stable way to sort a list, so every
    stable sort computes [sorted]. *)
Lemma stable_sort_unique (l1 l2 : list A) :
  StronglySorted (may_precede before) l1 ->
  StronglySorted (may_precede before) l2 ->
  (forall x, filter (same_rank before x) l1 = filter (same_rank before x) l2) ->
  l1 = l2.
Proof.
  intros H1. revert l2. induction H1 as [|a l1 Hs1 IH Ha]; intros l2 H2 Hst.
  - destruct l2 as [|b l2]; [reflexivity|].
    specialize (Hst b). cbn [filter] in Hst. now rewrite same_rank_refl in Hst.
  - destruct H2 as [|b l2 Hs2 Hb].
    { specialize (Hst a). cbn [filter] in Hst. now rewrite same_rank_refl in Hst. }
    assert (Hab : a = b).
    { pose proof (Hst a) as Hfa. pose proof (Hst b) as Hfb. cbn [filter] in Hfa, Hfb.
      rewrite same_rank_refl in Hfa, Hfb.
      destruct (same_rank before a b) eqn:Eab; [congruence|].
      assert (Eba : same_rank before b a = false).
      { unfold same_rank in *. now rewrite andb_comm. }
      rewrite Eba in Hfb.
      assert (Hain : In a l2).
      { assert (Hin : In a (filter (same_rank before a) l2))
          by (rewrite <- Hfa; now left).
        now apply filter_In in Hin. }
      assert (Hbin : In b l1).
      { assert (Hin : In b (filter (same_rank before b) l1))
          by (rewrite Hfb; now left).
        now apply filter_In in Hin. }
      rewrite Forall_forall in Ha, Hb.
      specialize (Ha b Hbin). specialize (Hb a Hain).
      unfold may_precede, same_rank in *. now rewrite Ha, Hb in Eab. }
    subst b. f_equal. apply IH; [assumption|].
    intros x. specialize (Hst x). cbn [filter] in Hst.
    destruct (same_rank before x a); congruence.
Qed.

Lemma sorted_determined (l l' : list A) :
  StronglySorted (may_precede before) l' ->
  (forall x, filter (same_rank before x) l' = filter (same_rank before x) l) ->
  l' = sorted before l.
Proof.
  intros Hs Hst. apply stable_sort_unique; [assumption|apply sorted_StronglySorted|].
  intros x. now rewrite sorted_stable.
Qed.

End SortedFacts.

(** ** Order on strings *)

Lemma ltb_lt (a b : string) : String.ltb a b = true <-> String_as_OT.lt a b.
Proof.
  unfold String.ltb. rewrite <- String_as_OT.cmp_lt. unfold String_as_OT.cmp.
  destruct (String.compare a b); split; congruence.
Qed.

Lemma ltb_asym (a b : string) : String.ltb a b = true -> String.ltb b a = false.
Proof.
  unfold String.ltb. rewrite (String.compare_antisym b a).
  destruct (String.compare a b); simpl; congruence.
Qed.

Lemma ltb_trichotomy (a b : string) :
  String.ltb a b = true \/ a = b \/ String.ltb b a = true.
Proof.
  unfold String.ltb. rewrite (String.compare_antisym b a).
  destruct (String.compare a b) eqn:E; simpl; auto.
  right; left. now apply String.compare_eq_iff.
Qed.

Lemma ltb_trans (a b c : string) :
  String.ltb a b = true -> String.ltb b c = true -> String.ltb a c = true.
Proof. rewrite !ltb_lt. apply String_as_OT.lt_trans. Qed.

Lemma ltb_irrefl (a : string) : String.ltb a a = false.
Proof.
  destruct (String.ltb a a) eqn:E; [|reflexivity].
  now rewrite (ltb_asym _ _ E) in E.
Qed.

Lemma ltb_cotrans (a b c : string) :
  String.ltb b a = false -> String.ltb c b = false -> String.ltb c a = false.
Proof.
  intros Hba Hcb. destruct (String.ltb c a) eqn:Hca; [|reflexivity].
  destruct (ltb_trichotomy a b) as [H|[H|H]].
  - rewrite (ltb_trans _ _ _ Hca H) in Hcb. discriminate.
  - subst. congruence.
  - congruence.
Qed.

(** ** Grouping the connections *)

Lemma members_app (name : string) (d1 d2 : list ConnData) :
  members name (d1 ++ d2) = members name d1 ++ members name d2.
Proof. apply filter_app. Qed.

Lemma add_key_In (ks : list string) (k k' : string) :
  In k' (add_key ks k) <-> In k' ks \/ k' = k.
Proof.
  unfold add_key. destruct (existsb (String.eqb k) ks) eqn:E.
  - split; [auto|]. intros [H| ->]; [assumption|].
    apply existsb_exists in E as (x & Hx & Hkx).
    apply String.eqb_eq in Hkx. now subst.
  - rewrite in_app_iff. simpl. intuition.
Qed.

Lemma add_key_NoDup (ks : list string) (k : string) :
  NoDup ks -> NoDup (add_key ks k).
Proof.
  intros H. unfold add_key. destruct (existsb (String.eqb k) ks) eqn:E; [assumption|].
  apply NoDup_app; [assumption|repeat constructor; intros []|].
  intros x Hx [E'|[]]. subst x.
  assert (existsb (String.eqb k) ks = true); [|congruence].
  apply existsb_exists. exists k. split; [assumption|apply String.eqb_refl].
Qed.

Lemma members_absent (ks : list string) (data : list ConnData) (k : string) :
  (forall c, In c data -> In (cd_process c) ks) ->
  existsb (String.eqb k) ks = false -> members k data = [].
Proof.
  intros Hin E. unfold members.
  induction data as [|c data IH]; [reflexivity|]. simpl.
  destruct (String.eqb (cd_process c) k) eqn:Ek.
  - apply String.eqb_eq in Ek. subst k.
    assert (existsb (String.eqb (cd_process c)) ks = true); [|congruence].
    apply existsb_exists. exists (cd_process c).
    split; [apply Hin; now left|apply String.eqb_refl].
  - apply IH. intros; apply Hin; now right.
Qed.

Lemma members_snoc_other (data : list ConnData) (c : ConnData) (k : string) :
  String.eqb (cd_process c) k = false -> members k (data ++ [c]) = members k data.
Proof.
  intros E. rewrite members_app. unfold members at 2. simpl.
  rewrite E. apply app_nil_r.
Qed.

Lemma members_snoc_same (data : list ConnData) (c : ConnData) :
  members (cd_process c) (data ++ [c]) = members (cd_process c) data ++ [c].
Proof.
  rewrite members_app. unfold members at 2. simpl. now rewrite String.eqb_refl.
Qed.

Lemma dict_append_keys (data : list ConnData) (c : ConnData) (ks : list string) :
  NoDup ks ->
  (existsb (String.eqb (cd_process c)) ks = false -> members (cd_process c) data = []) ->
  dict_append (map (fun k => (k, members k data)) ks) (cd_process c) c
  = map (fun k => (k, members k (data ++ [c]))) (add_key ks (cd_process c)).
Proof.
  unfold add_key. induction ks as [|k0 ks IH]; intros Hnd Habs.
  - simpl. rewrite members_snoc_same, Habs; reflexivity.
  - inversion Hnd as [|? ? Hk0 Hnd']; subst. cbn [map dict_append existsb].
    destruct (String.eqb (cd_process c) k0) eqn:E; cbn [orb].
    + apply String.eqb_eq in E. subst k0. cbn [map].
      rewrite members_snoc_same. f_equal.
      apply map_ext_in. intros k Hk. f_equal. symmetry.
      apply members_snoc_other. apply String.eqb_neq. congruence.
    + rewrite IH; [|assumption|].
      * destruct (existsb (String.eqb (cd_process c)) ks); cbn [map app];
          now rewrite (members_snoc_other data c k0 E).
      * intros E'. apply Habs. cbn [existsb]. now rewrite E, E'.
Qed.

Lemma first_seen_snoc (data : list ConnData) (c : ConnData) :
  first_seen (data ++ [c]) = add_key (first_seen data) (cd_process c).
Proof. unfold first_seen. now rewrite fold_left_app. Qed.

Lemma first_seen_In (data : list ConnData) (k : string) :
  In k (first_seen data) <-> exists c, In c data /\ cd_process c = k.
Proof.
  induction data as [|c data IH] using rev_ind.
  - simpl. split; [intros []|intros (c & [] & _)].
  - rewrite first_seen_snoc, add_key_In, IH. split.
    + intros [(c' & Hc' & E)| ->].
      * exists c'. split; [apply in_or_app; now left|assumption].
      * exists c. split; [apply in_or_app; right; now left|reflexivity].
    + intros (c' & Hc' & E). apply in_app_or in Hc' as [Hc'|[<- |[]]].
      * left. now exists c'.
      * now right.
Qed.

Lemma first_seen_NoDup (data : list ConnData) : NoDup (first_seen data).
Proof.
  induction data as [|c data IH] using rev_ind.
  - constructor.
  - rewrite first_seen_snoc. now apply add_key_NoDup.
Qed.

(** The dictionary the second loop builds: one entry for each process
    name, in first-seen order, holding the connections of that name. *)
Lemma group_connections_spec (data : list ConnData) :
  group_connections data = map (fun k => (k, members k data)) (first_seen data).
Proof.
  unfold group_connections.
  induction data as [|c data IH] using rev_ind; [reflexivity|].
  rewrite fold_left_app. cbn [fold_left]. rewrite IH, first_seen_snoc.
  apply dict_append_keys; [apply first_seen_NoDup|].
  apply members_absent. intros c' Hc'. apply first_seen_In. now exists c'.
Qed.

Lemma members_In (name : string) (data : list ConnData) :
  members name data <> [] <-> exists c, In c data /\ cd_process c = name.
Proof.
  unfold members. split.
  - intros H. destruct (filter _ data) as [|c l] eqn:E; [congruence|].
    assert (Hc : In c (filter (fun c => String.eqb (cd_process c) name) data))
      by (rewrite E; now left).
    apply filter_In in Hc as [Hc Hn]. apply String.eqb_eq in Hn. now exists c.
  - intros (c & Hc & Hn) E.
    assert (Hf : In c (filter (fun c => String.eqb (cd_process c) name) data)).
    { apply filter_In. split; [assumption|]. now apply String.eqb_eq. }
    now rewrite E in Hf.
Qed.

Lemma members_cons (k : string) (c : ConnData) (data : list ConnData) :
  members k (c :: data)
  = if String.eqb (cd_process c) k then c :: members k data else members k data.
Proof. reflexivity. Qed.

Lemma list_sum_cons (a : nat) (l : list nat) : list_sum (a :: l) = a + list_sum l.
Proof. reflexivity. Qed.

(** Each connection is in the group of exactly one name. *)
Lemma members_partition (ks : list string) (data : list ConnData) :
  NoDup ks -> (forall c, In c data -> In (cd_process c) ks) ->
  list_sum (map (fun k => length (members k data)) ks) = length data.
Proof.
  intros Hnd. induction data as [|c data IH]; intros Hin.
  - clear Hnd Hin. induction ks as [|k ks IHks]; [reflexivity|].
    cbn [map]. rewrite list_sum_cons, IHks. reflexivity.
  - cbn [length]. rewrite <- IH by (intros; apply Hin; now right).
    assert (Hc : In (cd_process c) ks) by (apply Hin; now left).
    clear IH Hin. revert Hnd Hc.
    induction ks as [|k ks IHks]; intros Hnd Hc; [destruct Hc|].
    destruct Hc as [Hc|Hc]; inversion Hnd as [|? ? Hk Hnd']; subst.
    + cbn [map]. rewrite !list_sum_cons, members_cons, String.eqb_refl. cbn [length].
      assert (E : map (fun k => length (members k (c :: data))) ks
                  = map (fun k => length (members k data)) ks).
      { apply map_ext_in. intros k Hk'. rewrite members_cons.
        destruct (String.eqb (cd_process c) k) eqn:Ek; [|reflexivity].
        apply String.eqb_eq in Ek. congruence. }
      rewrite E. reflexivity.
    + cbn [map]. rewrite !list_sum_cons, (IHks Hnd' Hc), members_cons.
      destruct (String.eqb (cd_process c) k) eqn:Ek.
      * apply String.eqb_eq in Ek. congruence.
      * lia.
Qed.

Lemma print_group_eq (name : string) (conns : list ConnData) :
  conns <> [] -> print_group (name, conns) = (group_lines name conns, Ok tt).
Proof.
  intros Hne. destruct conns as [|c0 rest]; [congruence|].
  unfold print_group, group_lines.
  rewrite bind_print, for_each_print, bind_ok. unfold printed, result. cbn [fst snd].
  destruct (5 <? length (c0 :: rest))%nat eqn:E; cbn [fst snd ret print].
  - unfold more_line. rewrite Nat2Z.inj_sub by (apply Nat.ltb_lt in E; lia).
    reflexivity.
  - reflexivity.
Qed.

Lemma strictly_sorted_keys {A} (f : A -> string) (l : list A) :
  StronglySorted (fun a b => String.ltb (f b) (f a) = false) l ->
  NoDup (map f l) ->
  StronglySorted (fun a b => String.ltb (f a) (f b) = true) l.
Proof.
  induction 1 as [|a l Hs IH Ha]; intros Hnd; [constructor|].
  cbn [map] in Hnd. inversion Hnd as [|? ? Hna Hnd']; subst.
  constructor; [now apply IH|].
  apply Forall_forall. intros b Hb.
  rewrite Forall_forall in Ha. specialize (Ha b Hb).
  destruct (ltb_trichotomy (f a) (f b)) as [H|[H|H]]; [assumption| |congruence].
  exfalso. apply Hna. rewrite H. now apply in_map.
Qed.

Lemma sorted_items_Permutation (d : Groups) : Permutation (sorted_items d) d.
Proof. apply sorted_Permutation. Qed.

Lemma sorted_items_In (data : list ConnData) (name : string) (conns : list ConnData) :
  In (name, conns) (sorted_items (group_connections data)) <->
  conns = members name data /\ conns <> [].
Proof.
  split.
  - intros H. apply (Permutation_in _ (sorted_items_Permutation _)) in H.
    rewrite group_connections_spec in H. apply in_map_iff in H as (k & E & Hk).
    inversion E; subst. split; [reflexivity|].
    apply members_In. now apply first_seen_In.
  - intros [-> Hne].
    apply (Permutation_in _ (Permutation_sym (sorted_items_Permutation _))).
    rewrite group_connections_spec. apply in_map_iff. exists name.
    split; [reflexivity|]. apply first_seen_In. now apply members_In.
Qed.

Lemma group_keys (data : list ConnData) :
  map fst (group_connections data) = first_seen data.
Proof. rewrite group_connections_spec, map_map. apply map_id. Qed.

Lemma print_connections_eq (data : list ConnData) :
  print_connections data
  = (flat_map (fun g => group_lines (fst g) (snd g))
       (sorted_items (group_connections data))
       ++ [total_connections_line (length data); ""], Ok tt).
Proof.
  unfold print_connections.
  rewrite for_each_ok.
  - rewrite bind_ok, bind_print. unfold printed, result, print. cbn [fst snd].
    f_equal. f_equal.
    rewrite !flat_map_concat_map. f_equal. apply map_ext_in.
    intros [name conns] Hg. apply sorted_items_In in Hg as [_ Hne].
    now rewrite print_group_eq.
  - intros [name conns] Hg. apply sorted_items_In in Hg as [_ Hne].
    now rewrite print_group_eq.
Qed.

(** C1: the groups of the Active Connections section are shown in
    lexicographic order of the process name; a group holds the connections
    of its name in the order they were recorded; it is shown as the name
    with the process id of its first member, at most five connection
    lines, and one line "... and N more" with [N = count - 5] when it has
    more than five members; the total is the number of connections before
    the groups are cut.  Seven connections of "chrome" and two of "ssh"
    give five chrome lines, "and 2 more", two ssh lines and the total 9. *)
Theorem active_connections_grouping :
  (forall connection_data : list ConnData,
     exists groups : list (string * list ConnData),
       StronglySorted (fun a b => String.ltb (fst a) (fst b) = true) groups
       /\ (forall name conns,
             In (name, conns) groups <->
             conns = members name connection_data /\ conns <> [])
       /\ print_connections connection_data
          = (flat_map (fun g => group_lines (fst g) (snd g)) groups
               ++ [total_connections_line (length connection_data); ""], Ok tt)
       /\ list_sum (map (fun g => length (snd g)) groups) = length connection_data)
  /\ print_connections sample_connection_data
     = ([ String "010" "[chrome] (PID: 4000)";
          "  Local: 10.0.0.5:40001 -> Remote: 93.184.216.34:443";
          "  Local: 10.0.0.5:40002 -> Remote: 93.184.216.34:443";
          "  Local: 10.0.0.5:40003 -> Remote: 93.184.216.34:443";
          "  Local: 10.0.0.5:40004 -> Remote: 93.184.216.34:443";
          "  Local: 10.0.0.5:40005 -> Remote: 93.184.216.34:443";
          "  ... and 2 more connections";
          String "010" "[ssh] (PID: 22)";
          "  Local: 10.0.0.5:50001 -> Remote: 93.184.216.34:443";
          "  Local: 10.0.0.5:50002 -> Remote: 93.184.216.34:443";
          String "010" "Total active connections: 9";
          "" ], Ok tt).
Proof.
  split; [|vm_compute; reflexivity].
  intros data. exists (sorted_items (group_connections data)).
  assert (Hperm := sorted_items_Permutation (group_connections data)).
  split; [|split; [|split]].
  - apply strictly_sorted_keys.
    + apply (sorted_StronglySorted (fun y x => String.ltb (fst y) (fst x))).
      * intros a b. apply ltb_asym.
      * intros a b c. apply ltb_cotrans.
    + apply (Permutation_NoDup (Permutation_sym (Permutation_map fst Hperm))).
      rewrite group_keys. apply first_seen_NoDup.
  - intros name conns. apply sorted_items_In.
  - apply print_connections_eq.
  - rewrite (Permutation_list_sum (Permutation_map _ Hperm)).
    rewrite group_connections_spec, map_map. cbn [snd].
    apply members_partition; [apply first_seen_NoDup|].
    intros c Hc. apply first_seen_In. now exists c.
Qed.

(** ** The sections and their titles *)

Ltac title_leaf :=
  unfold only_title, section_titles, banner;
  let H := fresh "H" in
  intros H; simpl in H;
  repeat (destruct H as [H|H]; [try discriminate H; try (symmetry; exact H)|]);
  try contradiction.

Ltac title_lines :=
  repeat first
    [ apply Forall_nil
    | apply Forall_cons; [title_leaf|]
    | apply Forall_printed_bind; [|intros]
    | apply Forall_printed_for_each; intros ].

Lemma get_system_info_titles (inv : Inventory) :
  Forall (only_title "SYSTEM INFORMATION") (printed (get_system_info inv)).
Proof. unfold get_system_info, print, call, printed. title_lines. Qed.

Lemma get_network_stats_titles (inv : Inventory) :
  Forall (only_title "NETWORK STATISTICS") (printed (get_network_stats inv)).
Proof. unfold get_network_stats, print, call, printed. title_lines. Qed.

Lemma monitor_network_connections_titles (inv : Inventory) :
  Forall (only_title "ACTIVE NETWORK CONNECTIONS")
    (printed (monitor_network_connections inv)).
Proof.
  unfold monitor_network_connections, print_connections.
  title_lines; try (unfold print, call, printed; cbn [fst]; title_lines).
  match goal with |- context [print_group ?g] => destruct g as [name conns] end.
  unfold print_group.
  title_lines; try (unfold print, call, printed; cbn [fst]; title_lines).
  destruct (5 <? length conns)%nat; unfold print, ret, printed; cbn [fst]; title_lines.
Qed.

Lemma check_listening_ports_titles (inv : Inventory) :
  Forall (only_title "LISTENING PORTS (Programs waiting for connections)")
    (printed (check_listening_ports inv)).
Proof.
  unfold check_listening_ports, print_listening.
  title_lines; try (unfold print, call, printed, listening_line; cbn [fst]; title_lines).
Qed.

Lemma check_suspicious_processes_titles (inv : Inventory) :
  Forall (only_title "RUNNING PROCESSES ANALYSIS")
    (printed (check_suspicious_processes inv)).
Proof.
  unfold check_suspicious_processes.
  title_lines; try (unfold print, call, printed; cbn [fst]; title_lines).
  - unfold print_suspicious.
    match goal with |- context [suspicious_processes ?st] =>
      destruct (suspicious_processes st) end.
    + unfold print, printed; cbn [fst]; title_lines.
    + title_lines; unfold print, printed; cbn [fst]; title_lines.
  - unfold print_high_network.
    match goal with |- context [high_network_processes ?st] =>
      destruct (high_network_processes st) end.
    + unfold ret, printed; cbn [fst]; title_lines.
    + title_lines; unfold print, printed; cbn [fst]; title_lines.
Qed.

Lemma pass_prints_own_title (inv : Inventory) (j : nat) (q : Pass unit) :
  nth_error (passes inv) j = Some q ->
  Forall (fun l => In l section_titles -> nth_error section_titles j = Some l) (printed q).
Proof.
  intros Hj.
  assert (H : exists own, nth_error section_titles j = Some own
                          /\ Forall (only_title own) (printed q)).
  { unfold passes in Hj.
    do 5 (destruct j as [|j];
          [injection Hj as <-; eexists; split; [reflexivity|];
           auto using get_system_info_titles, get_network_stats_titles,
             monitor_network_connections_titles, check_listening_ports_titles,
             check_suspicious_processes_titles|]).
    destruct j; discriminate Hj. }
  destruct H as (own & Hown & Hall).
  eapply Forall_impl; [|exact Hall].
  intros l Hl Hin. now rewrite (Hl Hin).
Qed.

Lemma section_titles_NoDup : NoDup section_titles.
Proof.
  unfold section_titles.
  repeat (constructor; [simpl; intros H;
    repeat (destruct H as [H|H]; [discriminate H|]); exact H|]).
  constructor.
Qed.

Lemma frame_lines_not_titles (e : exn) (l : string) :
  In l [title_line; error_line e; hint_line] -> ~ In l section_titles.
Proof.
  unfold title_line, error_line, hint_line, section_titles.
  intros H Hin. simpl in H.
  repeat (destruct H as [H|H]; [subst l; simpl in Hin;
    repeat (destruct Hin as [Hin|Hin]; [discriminate Hin|]); exact Hin|]).
  exact H.
Qed.

(** ** The entry point and its handler *)

Lemma report_passes (inv : Inventory) :
  report inv = bind (for_each (passes inv) (fun p => p)) (fun _ => recommendations).
Proof.
  unfold report, passes. cbn [for_each].
  destruct (get_system_info inv) as [o1 [[]|e1]]; [|reflexivity].
  destruct (get_network_stats inv) as [o2 [[]|e2]]; [|reflexivity].
  destruct (monitor_network_connections inv) as [o3 [[]|e3]]; [|reflexivity].
  destruct (check_listening_ports inv) as [o4 [[]|e4]]; [|reflexivity].
  destruct (check_suspicious_processes inv) as [o5 [[]|e5]]; [|reflexivity].
  rewrite !bind_ok. unfold ret, printed, result. cbn [fst snd].
  rewrite !app_nil_r, !bind_ok. unfold printed, result. cbn [fst snd].
  now rewrite <- !app_assoc.
Qed.

(** The passes before the failing one run, the failing one stops the
    sequence, the later ones are not started. *)
Lemma for_each_fault (before after : list (Pass unit)) (p : Pass unit) (e : exn) :
  Forall completed before -> result p = Raise e ->
  for_each (before ++ p :: after) (fun q => q)
  = (flat_map printed before ++ printed p, Raise e).
Proof.
  intros Hb Hp. induction Hb as [|q before Hq Hb IH]; cbn [app for_each flat_map].
  - rewrite (pass_eta p), Hp. reflexivity.
  - rewrite (pass_eta q), Hq, bind_ok, IH. unfold printed, result. cbn [fst snd].
    now rewrite app_assoc.
Qed.

Lemma main_completes (inv : Inventory) : result (main inv) = Ok tt.
Proof.
  unfold main. rewrite bind_print. unfold result. cbn [snd].
  destruct (report inv) as [o [[]|e]]; reflexivity.
Qed.

Lemma main_fault (inv : Inventory) (before after : list (Pass unit)) (p : Pass unit) (e : exn) :
  passes inv = before ++ p :: after ->
  Forall completed before ->
  result p = Raise e ->
  main inv
  = (title_line :: flat_map printed before ++ printed p ++ [error_line e; hint_line], Ok tt).
Proof.
  intros Hps Hb Hp. unfold main.
  rewrite report_passes, Hps, (for_each_fault _ _ _ _ Hb Hp), bind_raise, bind_print.
  unfold try_except, report_error, printed, result. cbn.
  now rewrite <- app_assoc.
Qed.

Lemma later_titles_absent (inv : Inventory) (before after : list (Pass unit))
      (p : Pass unit) (e : exn) :
  passes inv = before ++ p :: after ->
  Forall (fun t => ~ In t (title_line :: flat_map printed before ++ printed p
                             ++ [error_line e; hint_line]))
         (skipn (S (length before)) section_titles).
Proof.
  intros Hps. apply Forall_forall. intros t Ht Hin.
  assert (Htitle : In t section_titles).
  { rewrite <- (firstn_skipn (S (length before)) section_titles).
    apply in_or_app. now right. }
  apply In_nth_error in Ht as [i Hi]. rewrite nth_error_skipn in Hi.
  assert (Hown : forall j q, nth_error (passes inv) j = Some q -> In t (printed q) ->
                             j <= length before -> False).
  { intros j q Hj Hq Hle.
    pose proof (pass_prints_own_title inv j q Hj) as Hall.
    rewrite Forall_forall in Hall. specialize (Hall t Hq Htitle).
    assert (j = S (length before) + i); [|lia].
    apply (proj1 (NoDup_nth_error section_titles) section_titles_NoDup);
      [|congruence].
    apply nth_error_Some. congruence. }
  destruct Hin as [Hin|Hin].
  { apply (frame_lines_not_titles e t); [left; auto|assumption]. }
  apply in_app_or in Hin as [Hin|Hin].
  - apply in_flat_map in Hin as (q & Hq & Hin).
    apply In_nth_error in Hq as [j Hj].
    apply (Hown j q); [|assumption|].
    + rewrite Hps, nth_error_app1; [assumption|]. apply nth_error_Some. congruence.
    + assert (j < length before) by (apply nth_error_Some; congruence). lia.
  - apply in_app_or in Hin as [Hin|Hin].
    + apply (Hown (length before) p); [|assumption|lia].
      rewrite Hps, nth_error_app2, Nat.sub_diag by lia. reflexivity.
    + apply (frame_lines_not_titles e t); [right; exact Hin|assumption].
Qed.

(** C2: a fault raised by one of the five passes is caught once, by the
    handler of [main]: after what the passes had printed up to the fault
    come one error line and the hint, no later section is printed (the
    Recommendations block in particular), and [main] ends normally. *)
Theorem top_level_fault_handling :
  forall (inv : Inventory) (before after : list (Pass unit)) (p : Pass unit) (e : exn),
    passes inv = before ++ p :: after ->
    Forall completed before ->
    result p = Raise e ->
    main inv
    = (title_line :: flat_map printed before ++ printed p ++ [error_line e; hint_line],
       Ok tt)
    /\ Forall (fun t => ~ In t (printed (main inv)))
         (skipn (S (length before)) section_titles)
    /\ ~ In "RECOMMENDATIONS:" (printed (main inv)).
Proof.
  intros inv before after p e Hps Hb Hp.
  pose proof (main_fault inv before after p e Hps Hb Hp) as Hmain.
  assert (Hlater : Forall (fun t => ~ In t (printed (main inv)))
                     (skipn (S (length before)) section_titles)).
  { rewrite Hmain. unfold printed. cbn [fst].
    exact (later_titles_absent inv before after p e Hps). }
  repeat split; [exact Hmain|exact Hlater|].
  rewrite Forall_forall in Hlater. apply Hlater.
  apply (f_equal (@length _)) in Hps. rewrite length_app in Hps. cbn in Hps.
  destruct (length before) as [|[|[|[|[|n]]]]]; cbn; [tauto..|lia].
Qed.

Lemma top_level_fault_handling_witness :
  main process_fault_inventory
  = ([ title_line;
       banner; "SYSTEM INFORMATION"; banner;
       "System: Linux 6.1.0"; "Machine: x86_64"; "Processor: x86_64";
       "Scan Time: 2024-05-01 12:00:00.000000"; "";
       banner; "NETWORK STATISTICS"; banner;
       "Bytes Sent:     0.00 MB"; "Bytes Received: 0.00 MB";
       "Packets Sent:   0"; "Packets Recv:   0";
       "Errors In:      0"; "Errors Out:     0"; "";
       banner; "ACTIVE NETWORK CONNECTIONS"; banner;
       String "010" "Total active connections: 0"; "";
       banner; "LISTENING PORTS (Programs waiting for connections)"; banner;
       String "010" "Total listening ports: 0"; "";
       banner; "RUNNING PROCESSES ANALYSIS"; banner;
       error_line (OtherException "inventory failure"); hint_line ], Ok tt)
  /\ ~ In "RECOMMENDATIONS:" (printed (main process_fault_inventory)).
Proof.
  destruct (top_level_fault_handling process_fault_inventory
              [ get_system_info process_fault_inventory;
                get_network_stats process_fault_inventory;
                monitor_network_connections process_fault_inventory;
                check_listening_ports process_fault_inventory ]
              []
              (check_suspicious_processes process_fault_inventory)
              (OtherException "inventory failure"))
    as (Hmain & _ & Hreco).
  - reflexivity.
  - repeat constructor.
  - reflexivity.
  - split; [|exact Hreco]. rewrite Hmain. vm_compute. reflexivity.
Defined.

(** C3, as the specification states it, fails: when the platform query of
    System Summary raises, none of the five remaining sections is
    produced. *)
Lemma system_summary_fault_ends_report :
  result (get_system_info unavailable_platform)
    = Raise (OtherException "platform unavailable")
  /\ ~ remaining_sections_produced unavailable_platform
  /\ printed (main unavailable_platform)
     = [ title_line; banner; "SYSTEM INFORMATION"; banner;
         error_line (OtherException "platform unavailable"); hint_line ].
Proof.
  split; [reflexivity|]. split; [|vm_compute; reflexivity].
  unfold remaining_sections_produced. intros H.
  apply Forall_inv in H. vm_compute in H.
  repeat (destruct H as [H|H]; [discriminate H|]). exact H.
Qed.

(** C3, amended: a fault of System Summary is handled like every other
    fault of the report.  After the lines System Summary had printed come
    the error line and the hint, none of the remaining sections is
    produced, and [main] ends normally. *)
Theorem system_summary_fault_is_fatal :
  forall (inv : Inventory) (e : exn),
    result (get_system_info inv) = Raise e ->
    main inv
    = (title_line :: printed (get_system_info inv) ++ [error_line e; hint_line], Ok tt)
    /\ Forall (fun t => ~ In t (printed (main inv))) (skipn 1 section_titles).
Proof.
  intros inv e He.
  pose proof (main_fault inv [] _ (get_system_info inv) e eq_refl (Forall_nil _) He)
    as Hmain.
  split; [exact Hmain|].
  rewrite Hmain. unfold printed at 1. cbn [fst].
  exact (later_titles_absent inv [] _ (get_system_info inv) e eq_refl).
Qed.

Lemma system_summary_fault_is_fatal_witness :
  main unavailable_platform
  = ([ title_line; banner; "SYSTEM INFORMATION"; banner;
       error_line (OtherException "platform unavailable"); hint_line ], Ok tt)
  /\ Forall (fun t => ~ In t (printed (main unavailable_platform)))
       [ "NETWORK STATISTICS"; "ACTIVE NETWORK CONNECTIONS";
         "LISTENING PORTS (Programs waiting for connections)";
         "RUNNING PROCESSES ANALYSIS"; "RECOMMENDATIONS:" ].
Proof.
  destruct (system_summary_fault_is_fatal unavailable_platform
              (OtherException "platform unavailable")) as (Hmain & Hlater).
  - reflexivity.
  - split; [|exact Hlater]. rewrite Hmain. vm_compute. reflexivity.
Defined.

(** ** Process analysis *)




(** One iteration that does not raise appends to the two lists what the
    process contributes. *)
Lemma scan_process_spec (st st' : Scan) (proc : Proc) :
  scan_process st proc = Ok st' ->
  suspicious_processes st'
  = suspicious_processes st ++ filter is_suspicious [info proc]
  /\ high_network_processes st'
     = high_network_processes st ++ network_entries proc.
Proof.
  unfold scan_process, check_network_usage, network_entries, is_suspicious, high_entry.
  cbn [filter].
  destruct (info_name (info proc)) as [name|]; [|discriminate].
  destruct (any_keyword (lower name));
    (destruct (io_counters proc) as [[r w]|[m|m|m|m]];
     [destruct ((10000000 <? r)%Z || (10000000 <? w)%Z)|..]);
    intros [= <-]; cbn [suspicious_processes high_network_processes];
    rewrite ?app_nil_r; split; reflexivity.
Qed.

Lemma scan_processes_spec (procs : list Proc) (st st' : Scan) :
  scan_processes procs st = Ok st' ->
  suspicious_processes st'
  = suspicious_processes st ++ filter is_suspicious (map info procs)
  /\ high_network_processes st'
     = high_network_processes st ++ flat_map network_entries procs.
Proof.
  revert st. induction procs as [|proc procs IH]; intros st; cbn [scan_processes].
  - intros [= <-]. cbn. now rewrite !app_nil_r.
  - destruct (scan_process st proc) as [st1|e] eqn:E; [|discriminate].
    intros H. apply IH in H as [Hs Hh].
    apply scan_process_spec in E as [Es Eh].
    rewrite Hs, Hh, Es, Eh, <- !app_assoc. cbn [map flat_map filter app].
    split; [|reflexivity]. f_equal. now destruct (is_suspicious (info proc)).
Qed.

(** The loop over a list cut in two: the second part continues from the
    state the first part leaves. *)
Lemma scan_processes_app (l1 l2 : list Proc) (st : Scan) :
  scan_processes (l1 ++ l2) st
  = match scan_processes l1 st with
    | Ok st1 => scan_processes l2 st1
    | Raise e => Raise e
    end.
Proof.
  revert st. induction l1 as [|proc l1 IH]; intros st; cbn [app scan_processes].
  - reflexivity.
  - destruct (scan_process st proc); [apply IH|reflexivity].
Qed.



(** C5: a process whose counters can be read is added to the
    high-network list exactly when it has read more than 10,000,000 bytes
    or written more than 10,000,000 bytes; the list of a finished scan
    holds these entries and no others.  Exactly 10,000,000 bytes read and
    none written is not listed, 10,000,001 bytes read is. *)
Theorem high_network_threshold :
  (forall (st : Scan) (proc : Proc) (name : string) (read_bytes write_bytes : Z),
     info_name (info proc) = Some name ->
     io_counters proc = Ok (read_bytes, write_bytes) ->
     exists st',
       scan_process st proc = Ok st'
       /\ (above_threshold read_bytes write_bytes ->
           high_network_processes st'
           = high_network_processes st ++ [high_entry proc name read_bytes write_bytes])
       /\ (~ above_threshold read_bytes write_bytes ->
           high_network_processes st' = high_network_processes st))
  /\ (forall (procs : list Proc) (st : Scan),
        scan_processes procs no_findings = Ok st ->
        high_network_processes st = flat_map network_entries procs)
  /\ scan_processes
       [ sample_proc 20 "backup" (Ok (10000000, 0)%Z);
         sample_proc 21 "sync" (Ok (10000001, 0)%Z);
         sample_proc 22 "upload" (Ok (0, 10000001)%Z);
         sample_proc 23 "idle" (Ok (0, 10000000)%Z) ] no_findings
     = Ok {| suspicious_processes := [];
             high_network_processes :=
               [ high_entry (sample_proc 21 "sync" (Ok (10000001, 0)%Z))
                   "sync" 10000001 0;
                 high_entry (sample_proc 22 "upload" (Ok (0, 10000001)%Z))
                   "upload" 0 10000001 ] |}.
Proof.
  split; [|split; [|reflexivity]].
  - intros st proc name r w Hn Hio.
    unfold scan_process, check_network_usage, above_threshold. rewrite Hn, Hio.
    destruct (Z.ltb_spec 10000000 r) as [Er|Er], (Z.ltb_spec 10000000 w) as [Ew|Ew];
      cbn [orb]; eexists; (split; [reflexivity|]); cbn [high_network_processes];
      (split; [intros Ha|intros Hna]); try reflexivity; exfalso; lia.
  - intros procs st H. now apply scan_processes_spec in H as [_ Hh].
Qed.

Lemma high_network_threshold_witness :
  exists st',
    scan_process no_findings (sample_proc 21 "sync" (Ok (10000001, 0)%Z)) = Ok st'
    /\ high_network_processes st'
       = [high_entry (sample_proc 21 "sync" (Ok (10000001, 0)%Z)) "sync" 10000001 0].
Proof.
  destruct (proj1 high_network_threshold no_findings
              (sample_proc 21 "sync" (Ok (10000001, 0)%Z)) "sync" 10000001%Z 0%Z
              eq_refl eq_refl) as (st' & Hst & Hadd & _).
  exists st'. split; [exact Hst|].
  apply Hadd. left. reflexivity.
Defined.



(** ** Listening ports *)

Lemma length_append (s1 s2 : string) :
  String.length (s1 ++ s2) = String.length s1 + String.length s2.
Proof. induction s1; simpl; congruence. Qed.

Lemma append_assoc (s1 s2 s3 : string) :
  ((s1 ++ s2) ++ s3 = s1 ++ s2 ++ s3)%string.
Proof. induction s1; simpl; congruence. Qed.

Lemma length_str_mul_space (n : nat) : String.length (str_mul " " n) = n.
Proof. induction n; simpl; congruence. Qed.

Lemma numerals_fit_from_spec (count : nat) :
  forall lo, numerals_fit_from lo count = true ->
  forall n, (lo <= n < lo + Z.of_nat count)%Z -> numeral_fits n = true.
Proof.
  induction count as [|k IH]; intros lo H n Hn; [lia|].
  cbn [numerals_fit_from] in H. apply andb_prop in H as [H0 H1].
  destruct (Z.eq_dec n lo) as [->|Hne]; [assumption|].
  apply (IH (lo + 1)%Z H1). lia.
Qed.

Lemma port_numerals_fit : numerals_fit_from 0 port_count = true.
Proof. vm_compute. reflexivity. Qed.

Lemma port_numeral_length (pt : Z) :
  (0 <= pt <= 65535)%Z -> String.length (str_int pt) <= 5.
Proof.
  intros H. apply Nat.leb_le. change (numeral_fits pt = true).
  apply (numerals_fit_from_spec port_count 0%Z port_numerals_fit).
  assert (Z.of_nat port_count = 65536%Z) by (vm_compute; reflexivity). lia.
Qed.

Lemma sorted_by_port_sorted (listening : list Listening) :
  StronglySorted (fun a b => (l_port a <= l_port b)%Z) (sorted_by_port listening).
Proof.
  unfold sorted_by_port.
  eapply StronglySorted_impl; [|apply sorted_StronglySorted].
  - intros a b Hab. unfold may_precede in Hab. now apply Z.ltb_ge in Hab.
  - intros a b Hab. apply Z.ltb_lt in Hab. apply Z.ltb_ge. lia.
  - intros a b c Hba Hcb. apply Z.ltb_ge in Hba, Hcb. apply Z.ltb_ge. lia.
Qed.

Lemma print_listening_eq (listening : list Listening) :
  print_listening listening
  = (map listening_line (sorted_by_port listening)
       ++ [total_listening_line (length listening); ""], Ok tt).
Proof.
  unfold print_listening.
  rewrite for_each_print, bind_ok, bind_print. reflexivity.
Qed.

(** C7: the lines of the Listening Ports section are the collected entries
    in ascending order of the port (entries with equal ports in the order
    they were collected), one line for each entry: the port right-justified
    in a field of width five, then the process name, the process id and
    the bind address; the total is the number of collected entries.
    Ports 443, 8080, 22 are shown in the order 22, 443, 8080. *)
Theorem listening_ports_report :
  (forall listening : list Listening,
     exists shown : list Listening,
       Permutation shown listening
       /\ StronglySorted (fun a b => (l_port a <= l_port b)%Z) shown
       /\ (forall pt, filter (fun x => (l_port x =? pt)%Z) shown
                      = filter (fun x => (l_port x =? pt)%Z) listening)
       /\ print_listening listening
          = (map listening_line shown
               ++ [total_listening_line (length listening); ""], Ok tt))
  /\ (forall item : Listening,
        (0 <= l_port item <= 65535)%Z ->
        listening_line item
        = ("Port " ++ str_mul " " (5 - String.length (str_int (l_port item)))
             ++ str_int (l_port item) ++ " - " ++ l_process item
             ++ " (PID: " ++ str_opt_int (l_pid item) ++ ") on " ++ l_address item)%string
        /\ String.length (str_mul " " (5 - String.length (str_int (l_port item)))
                            ++ str_int (l_port item)) = 5)
  /\ print_listening sample_listening
     = ([ "Port    22 - sshd (PID: 803) on 0.0.0.0";
          "Port   443 - nginx (PID: 801) on 0.0.0.0";
          "Port  8080 - java (PID: 802) on 0.0.0.0";
          String "010" "Total listening ports: 3";
          "" ], Ok tt).
Proof.
  split; [|split; [|reflexivity]].
  - intros listening. exists (sorted_by_port listening).
    split; [apply sorted_Permutation|].
    split; [apply sorted_by_port_sorted|]. split.
    + intros pt. apply filter_sorted. intros a b Ha Hb.
      apply Z.eqb_eq in Ha, Hb. apply Z.ltb_ge. lia.
    + apply print_listening_eq.
  - intros item Hport. split.
    + unfold listening_line, rjust. now rewrite append_assoc.
    + rewrite length_append, length_str_mul_space.
      pose proof (port_numeral_length _ Hport). lia.
Qed.

Lemma listening_ports_report_witness :
  listening_line (sample_listener "sshd" 803 22)
  = "Port    22 - sshd (PID: 803) on 0.0.0.0".
Proof.
  destruct (proj1 (proj2 listening_ports_report) (sample_listener "sshd" 803 22))
    as [Hline _].
  - cbn. lia.
  - rewrite Hline. reflexivity.
Defined.

(** ** High network usage *)

Lemma flt_lt (x y : Q) : flt x y = true <-> (x < y)%Q.
Proof.
  unfold flt. rewrite negb_true_iff, <- not_true_iff_false, Qle_bool_iff.
  split; [apply Qnot_le_lt|apply Qlt_not_le].
Qed.

Lemma flt_ge (x y : Q) : flt x y = false <-> (y <= x)%Q.
Proof. unfold flt. now rewrite negb_false_iff, Qle_bool_iff. Qed.

Lemma sorted_by_usage_sorted (high : list HighNet) :
  StronglySorted (fun a b => (usage_key b <= usage_key a)%Q) (sorted_by_usage high).
Proof.
  unfold sorted_by_usage.
  eapply StronglySorted_impl; [|apply sorted_StronglySorted].
  - intros a b Hab. unfold may_precede in Hab. now apply flt_ge in Hab.
  - intros a b Hab. apply flt_lt in Hab. apply flt_ge. now apply Qlt_le_weak.
  - intros a b c Hba Hcb. apply flt_ge in Hba, Hcb. apply flt_ge.
    eapply Qle_trans; eassumption.
Qed.

Lemma print_high_network_eq (high : list HighNet) :
  print_high_network high
  = (match high with
     | [] => []
     | _ :: _ =>
         usage_header
         :: flat_map (fun proc => [usage_name_line proc; usage_figures_line proc])
              (top_network high)
     end, Ok tt).
Proof.
  unfold print_high_network. destruct high as [|h high]; [reflexivity|].
  rewrite bind_print, for_each_ok by reflexivity. reflexivity.
Qed.

(** C6: the high-network entries the report shows are the first ten of
    the list sorted by descending [read_mb + write_mb]; entries with equal
    sums keep the order of the list, so the selection and its order are a
    function of the list.  Of the entries of fifteen processes above the
    threshold the ten largest are shown. *)
Theorem high_network_top10 :
  (forall high : list HighNet,
     Permutation (sorted_by_usage high) high
     /\ StronglySorted (fun a b => (usage_key b <= usage_key a)%Q) (sorted_by_usage high)
     /\ (forall k : Q,
           filter (fun x => Qeq_bool (usage_key x) k) (sorted_by_usage high)
           = filter (fun x => Qeq_bool (usage_key x) k) high)
     /\ top_network high = firstn 10 (sorted_by_usage high)
     /\ length (top_network high) = Nat.min 10 (length high)
     /\ print_high_network high
        = (match high with
           | [] => []
           | _ :: _ =>
               usage_header
               :: flat_map (fun proc => [usage_name_line proc; usage_figures_line proc])
                    (top_network high)
           end, Ok tt))
  /\ (scan_processes sample_busy_procs no_findings
      = Ok {| suspicious_processes := []; high_network_processes := sample_high |}
      /\ length sample_high = 15
      /\ map h_pid (top_network sample_high) = [11; 4; 6; 8; 13; 15; 2; 10; 3; 9]%Z
      /\ length (printed (print_high_network sample_high)) = 21).
Proof.
  split; [|repeat split; vm_compute; reflexivity].
  intros high.
  split; [apply sorted_Permutation|].
  split; [apply sorted_by_usage_sorted|]. split; [|split; [reflexivity|split]].
  - intros k. apply filter_sorted. intros a b Ha Hb.
    apply Qeq_bool_iff in Ha, Hb. apply flt_ge. rewrite Ha, Hb. apply Qle_refl.
  - unfold top_network. rewrite length_firstn.
    unfold sorted_by_usage. now rewrite sorted_length.
  - apply print_high_network_eq.
Qed.

(** ** Connections without an owning process *)

Lemma collect_connections_acc (connections : list Conn) (acc : list ConnData) :
  collect_connections connections acc
  = append_outcomes (Ok acc) (collect_connections connections []).
Proof.
  revert acc. induction connections as [|conn rest IH]; intros acc;
    cbn [collect_connections append_outcomes].
  - now rewrite app_nil_r.
  - destruct (String.eqb (status conn) "ESTABLISHED"); [|apply IH].
    destruct (process_name_of conn) as [name|[m|m|m|m]]; try apply IH; try reflexivity.
    rewrite IH, (IH ([] ++ _)). cbn [app append_outcomes].
    destruct (collect_connections rest []); [|reflexivity].
    cbn [append_outcomes]. now rewrite <- app_assoc.
Qed.

Lemma collect_connections_app (l1 l2 : list Conn) :
  collect_connections (l1 ++ l2) []
  = append_outcomes (collect_connections l1 []) (collect_connections l2 []).
Proof.
  induction l1 as [|conn l1 IH]; cbn [app collect_connections].
  - destruct (collect_connections l2 []); reflexivity.
  - destruct (String.eqb (status conn) "ESTABLISHED"); [|apply IH].
    destruct (process_name_of conn) as [name|[m|m|m|m]]; try apply IH; try reflexivity.
    cbn [app].
    rewrite (collect_connections_acc (l1 ++ l2)), IH, (collect_connections_acc l1 (_ :: _)).
    destruct (collect_connections l1 []) as [d1|e]; [|reflexivity].
    destruct (collect_connections l2 []) as [d2|e]; reflexivity.
Qed.

Lemma collect_listening_acc (connections : list Conn) (acc : list Listening) :
  collect_listening connections acc
  = append_outcomes (Ok acc) (collect_listening connections []).
Proof.
  revert acc. induction connections as [|conn rest IH]; intros acc;
    cbn [collect_listening append_outcomes].
  - now rewrite app_nil_r.
  - destruct (String.eqb (status conn) "LISTEN"); [|apply IH].
    destruct (process_name_of conn) as [name|[m|m|m|m]]; try apply IH; try reflexivity.
    destruct (laddr conn) as [a|]; [|reflexivity].
    rewrite IH, (IH ([] ++ _)). cbn [app append_outcomes].
    destruct (collect_listening rest []); [|reflexivity].
    cbn [append_outcomes]. now rewrite <- app_assoc.
Qed.

Lemma collect_listening_app (l1 l2 : list Conn) :
  collect_listening (l1 ++ l2) []
  = append_outcomes (collect_listening l1 []) (collect_listening l2 []).
Proof.
  induction l1 as [|conn l1 IH]; cbn [app collect_listening].
  - destruct (collect_listening l2 []); reflexivity.
  - destruct (String.eqb (status conn) "LISTEN"); [|apply IH].
    destruct (process_name_of conn) as [name|[m|m|m|m]]; try apply IH; try reflexivity.
    destruct (laddr conn) as [a|]; [|reflexivity].
    cbn [app].
    rewrite (collect_listening_acc (l1 ++ l2)), IH, (collect_listening_acc l1 (_ :: _)).
    destruct (collect_listening l1 []) as [d1|e]; [|reflexivity].
    destruct (collect_listening l2 []) as [d2|e]; reflexivity.
Qed.

Lemma process_name_of_unowned (conn : Conn) :
  pid conn = None -> process_name_of conn = Ok "Unknown".
Proof. unfold process_name_of. now intros ->. Qed.

Lemma collect_connections_unowned (conn : Conn) (rest : list Conn) (acc : list ConnData) :
  pid conn = None -> status conn = "ESTABLISHED" ->
  collect_connections (conn :: rest) acc
  = collect_connections rest (acc ++ [unknown_connection conn]).
Proof.
  intros Hp Hs. cbn [collect_connections]. unfold unknown_connection.
  rewrite (process_name_of_unowned conn Hp), Hp, Hs. reflexivity.
Qed.

Lemma collect_listening_unowned (conn : Conn) (rest : list Conn) (acc : list Listening) :
  pid conn = None -> status conn = "LISTEN" ->
  collect_listening (conn :: rest) acc
  = match laddr conn with
    | Some a => collect_listening rest (acc ++ [unknown_listener a])
    | None => Raise (AttributeError "'tuple' object has no attribute 'port'")
    end.
Proof.
  intros Hp Hs. cbn [collect_listening]. unfold unknown_listener.
  rewrite (process_name_of_unowned conn Hp), Hp, Hs. reflexivity.
Qed.

(** C10: a connection without an owning process id is not looked up and
    not skipped.  In Active Connections it is recorded under the name
    "Unknown", between what the connections before and after it give; it
    is a member of the group "Unknown" that the report shows, and the
    total counts it.  In Listening Ports it is recorded under the name
    "Unknown" and its line is printed. *)
Theorem unknown_owner_is_kept :
  (forall (pre post : list Conn) (conn : Conn) (data : list ConnData),
     pid conn = None ->
     status conn = "ESTABLISHED" ->
     collect_connections (pre ++ conn :: post) [] = Ok data ->
     exists d1 d2,
       collect_connections pre [] = Ok d1
       /\ collect_connections post [] = Ok d2
       /\ data = d1 ++ unknown_connection conn :: d2
       /\ In ("Unknown", members "Unknown" data) (sorted_items (group_connections data))
       /\ In (unknown_connection conn) (members "Unknown" data)
       /\ In (total_connections_line (length d1 + 1 + length d2))
            (printed (print_connections data)))
  /\ (forall (pre post : list Conn) (conn : Conn) (listening : list Listening),
        pid conn = None ->
        status conn = "LISTEN" ->
        collect_listening (pre ++ conn :: post) [] = Ok listening ->
        exists a l1 l2,
          laddr conn = Some a
          /\ collect_listening pre [] = Ok l1
          /\ collect_listening post [] = Ok l2
          /\ listening = l1 ++ unknown_listener a :: l2
          /\ In (listening_line (unknown_listener a))
               (printed (print_listening listening))).
Proof.
  split.
  - intros pre post conn data Hpid Hst H.
    rewrite collect_connections_app, (collect_connections_unowned _ _ _ Hpid Hst),
      (collect_connections_acc post) in H.
    destruct (collect_connections pre []) as [d1|e1]; [|discriminate].
    destruct (collect_connections post []) as [d2|e2];
      cbn [append_outcomes app] in H; [|discriminate].
    injection H as <-.
    exists d1, d2.
    assert (Hin : In (unknown_connection conn)
                     (members "Unknown" (d1 ++ unknown_connection conn :: d2))).
    { apply filter_In. split; [apply in_elt|reflexivity]. }
    repeat split; try reflexivity.
    + apply sorted_items_In. split; [reflexivity|].
      intros E. now rewrite E in Hin.
    + exact Hin.
    + rewrite print_connections_eq. unfold printed. cbn [fst].
      apply in_or_app. right. left. f_equal.
      rewrite length_app. cbn [length]. lia.
  - intros pre post conn listening Hpid Hst H.
    rewrite collect_listening_app, (collect_listening_unowned _ _ _ Hpid Hst) in H.
    destruct (laddr conn) as [a|].
    + rewrite (collect_listening_acc post) in H.
      destruct (collect_listening pre []) as [l1|e1]; [|discriminate].
      destruct (collect_listening post []) as [l2|e2];
        cbn [append_outcomes app] in H; [|discriminate].
      injection H as <-.
      exists a, l1, l2. repeat split.
      rewrite print_listening_eq. unfold printed. cbn [fst].
      apply in_or_app. left. apply in_map.
      apply (Permutation_in _ (Permutation_sym (sorted_Permutation _ _))).
      apply in_elt.
    + destruct (collect_listening pre []); discriminate.
Qed.

Lemma unknown_owner_is_kept_witness :
  exists d1 d2,
    collect_connections [sample_owned] [] = Ok d1
    /\ collect_connections [sample_denied] [] = Ok d2
    /\ sample_records = d1 ++ unknown_connection sample_unowned :: d2
    /\ In ("Unknown", members "Unknown" sample_records)
         (sorted_items (group_connections sample_records))
    /\ In (unknown_connection sample_unowned) (members "Unknown" sample_records)
    /\ In (total_connections_line (length d1 + 1 + length d2))
         (printed (print_connections sample_records)).
Proof.
  exact (proj1 unknown_owner_is_kept [sample_owned] [sample_denied] sample_unowned
           sample_records eq_refl eq_refl eq_refl).
Defined.

(** ** Floats: rounding and the two-decimal format *)

Local Open Scope Q_scope.

(** The nearest integer is at most one half away. *)
Lemma rne_spec (q : Q) :
  q - (1 # 2) <= inject_Z (rne q) <= q + (1 # 2).
Proof.
  unfold rne.
  pose proof (Qfloor_le q) as Hlo. pose proof (Qlt_floor q) as Hhi.
  rewrite inject_Z_plus in Hhi. change (inject_Z 1) with 1 in Hhi.
  destruct (Qcompare_spec (q - inject_Z (Qfloor q)) (1 # 2)) as [E|E|E].
  - destruct (Z.even (Qfloor q)); rewrite ?inject_Z_plus;
      change (inject_Z 1) with 1; lra.
  - lra.
  - rewrite inject_Z_plus. change (inject_Z 1) with 1. lra.
Qed.

Lemma two_power_pos (e : Z) : 0 < 2 ^ e.
Proof. apply Qpower_0_lt. reflexivity. Qed.

Lemma inject_Z_pos (z : Z) : (0 < z)%Z -> 0 < inject_Z z.
Proof. intros H. change 0 with (inject_Z 0). now rewrite <- Zlt_Qlt. Qed.

(** The binade of a positive number starts below the number. *)
Lemma binade_le (q : Q) : 0 < q -> 2 ^ binade q <= q.
Proof.
  intros Hq. unfold binade.
  set (a := Z.log2 (Qnum q)). set (b := Z.log2 (Z.pos (Qden q))).
  destruct (Qle_bool (2 ^ (a - b)) q) eqn:E; [now apply Qle_bool_iff|].
  assert (Hn : (0 < Qnum q)%Z).
  { destruct q as [n d]. unfold Qlt in Hq. simpl in *. lia. }
  destruct (Z.log2_spec _ Hn) as [Hn_lo _].
  destruct (Z.log2_spec (Z.pos (Qden q)) eq_refl) as [_ Hd_hi].
  fold a in Hn_lo. fold b in Hd_hi.
  assert (Ha : (0 <= a)%Z) by apply Z.log2_nonneg.
  assert (Hb : (0 <= b)%Z) by apply Z.log2_nonneg.
  replace (a - b - 1)%Z with (a - Z.succ b)%Z by lia.
  rewrite Qpower_minus by discriminate.
  rewrite <- !(Zpower_Qpower 2) by lia.
  assert (Hq' : q == inject_Z (Qnum q) / inject_Z (Z.pos (Qden q))).
  { destruct q as [n d]. apply Qmake_Qdiv. }
  rewrite Hq'.
  assert (HB : 0 < inject_Z (2 ^ Z.succ b)).
  { apply inject_Z_pos. apply Z.pow_pos_nonneg; lia. }
  assert (HD : 0 < inject_Z (Z.pos (Qden q))) by (now apply inject_Z_pos).
  apply Qle_shift_div_l; [assumption|].
  assert (Hc : inject_Z (2 ^ a) / inject_Z (2 ^ Z.succ b) * inject_Z (Z.pos (Qden q))
               == inject_Z (2 ^ a) * inject_Z (Z.pos (Qden q)) / inject_Z (2 ^ Z.succ b)).
  { field. intros H0. rewrite H0 in HB. discriminate. }
  rewrite Hc. apply Qle_shift_div_r; [assumption|].
  rewrite <- !inject_Z_mult, <- Zle_Qle.
  apply Z.mul_le_mono_nonneg; lia.
Qed.

(** Rounding a positive number to 53 bits changes it by at most the
    fraction [2^-53] of itself. *)
Lemma round53_pos_err (q : Q) :
  0 < q ->
  - (q * (1 # 9007199254740992)) <= round53_pos q - q <= q * (1 # 9007199254740992).
Proof.
  intros Hq. unfold round53_pos.
  set (e := (binade q - 52)%Z). set (p := 2 ^ e).
  assert (Hp : 0 < p) by apply two_power_pos.
  assert (Hbin : p * 4503599627370496 <= q).
  { pose proof (binade_le q Hq) as H.
    replace (binade q) with (e + 52)%Z in H by (unfold e; lia).
    rewrite Qpower_plus in H by discriminate. exact H. }
  pose proof (rne_spec (q / p)) as [Hlo Hhi].
  set (m := inject_Z (rne (q / p))) in *.
  assert (Hqp : q / p * p == q) by (field; lra).
  assert (Hup : m * p <= (q / p + (1 # 2)) * p)
    by (apply Qmult_le_compat_r; lra).
  assert (Hdown : (q / p - (1 # 2)) * p <= m * p)
    by (apply Qmult_le_compat_r; lra).
  set (x := m * p) in *. set (t := q / p * p) in *.
  assert (E1 : (q / p + (1 # 2)) * p == t + (1 # 2) * p) by (unfold t; ring).
  assert (E2 : (q / p - (1 # 2)) * p == t - (1 # 2) * p) by (unfold t; ring).
  lra.
Qed.

Lemma round53_pos_eq (q : Q) : 0 < q -> round53 q == round53_pos q.
Proof.
  intros Hq. unfold round53.
  apply Qgt_alt in Hq. rewrite Hq. apply Qred_correct.
Qed.

(** The megabytes of a positive byte count, as a float. *)
Lemma truediv_mb_err (b : Z) :
  (0 < b)%Z ->
  let q := inject_Z b / 1000000 in
  - (q * (1 # 9007199254740992)) <= truediv b 1000000 - q
    <= q * (1 # 9007199254740992).
Proof.
  intros Hb q.
  assert (Hq : 0 < q).
  { unfold q. apply Qlt_shift_div_l; [reflexivity|].
    rewrite Qmult_0_l. now apply inject_Z_pos. }
  unfold truediv. change (inject_Z 1000000) with 1000000. fold q.
  rewrite (round53_pos_eq q Hq). now apply round53_pos_err.
Qed.

(** The hundredths shown for a byte count are within half a hundredth of
    a megabyte, that is 5000 bytes, of the count. *)
Lemma hundredths_mb_bound (b : Z) :
  (0 <= b < 2 ^ 53)%Z ->
  (0 <= hundredths (truediv b 1000000))%Z
  /\ (Z.abs (hundredths (truediv b 1000000) * 10000 - b) <= 5000)%Z
  /\ 0 <= truediv b 1000000.
Proof.
  intros [Hb0 Hb53].
  destruct (Z.eq_dec b 0) as [->|Hne]; [vm_compute; repeat split; discriminate|].
  assert (Hb : (0 < b)%Z) by lia.
  pose proof (truediv_mb_err b Hb) as Herr. cbv zeta in Herr.
  set (x := truediv b 1000000) in *.
  assert (HB : 0 < inject_Z b) by now apply inject_Z_pos.
  assert (HB53 : inject_Z b < 9007199254740992).
  { change 9007199254740992 with (inject_Z (2 ^ 53)). now rewrite <- Zlt_Qlt. }
  assert (Hq : inject_Z b / 1000000 * 1000000 == inject_Z b) by (field; discriminate).
  set (q := inject_Z b / 1000000) in *.
  assert (Hx : 0 <= x) by lra.
  unfold hundredths.
  pose proof (rne_spec (Qabs x * 100)) as Hc.
  pose proof (Qabs_pos x Hx) as Ha.
  set (c := rne (Qabs x * 100)) in *. set (ax := Qabs x) in *.
  assert (Hlo : inject_Z (-1) < inject_Z c) by (change (inject_Z (-1)) with (-1); lra).
  assert (Hup : inject_Z (c * 10000 - b) < inject_Z 5001).
  { unfold Z.sub. rewrite inject_Z_plus, inject_Z_mult, inject_Z_opp.
    change (inject_Z 10000) with 10000. change (inject_Z 5001) with 5001. lra. }
  assert (Hdown : inject_Z (-5001) < inject_Z (c * 10000 - b)).
  { unfold Z.sub. rewrite inject_Z_plus, inject_Z_mult, inject_Z_opp.
    change (inject_Z 10000) with 10000. change (inject_Z (-5001)) with (-5001). lra. }
  rewrite <- Zlt_Qlt in Hlo, Hup, Hdown.
  repeat split; [lia|lia|exact Hx].
Qed.

Local Close Scope Q_scope.

Lemma digit_length (d : Z) : (0 <= d <= 9)%Z -> String.length (str_int d) = 1.
Proof.
  intros H.
  assert (E : d = 0%Z \/ d = 1%Z \/ d = 2%Z \/ d = 3%Z \/ d = 4%Z \/ d = 5%Z
              \/ d = 6%Z \/ d = 7%Z \/ d = 8%Z \/ d = 9%Z) by lia.
  repeat (destruct E as [->|E]; [reflexivity|]). now subst.
Qed.

Lemma two_digits_length (n : Z) :
  (0 <= n < 100)%Z -> String.length (two_digits n) = 2.
Proof.
  intros H. unfold two_digits.
  rewrite length_append, !digit_length; [reflexivity| |].
  - pose proof (Z.mod_pos_bound n 10). lia.
  - split; [apply Z.div_pos; lia|].
    assert (n / 10 < 10)%Z by (apply Z.div_lt_upper_bound; lia). lia.
Qed.

Lemma fmt_2f_nonneg (x : Q) :
  (0 <= x)%Q ->
  fmt_2f x
  = (str_int (hundredths x / 100) ++ "." ++ two_digits (hundredths x mod 100))%string.
Proof.
  intros Hx. unfold fmt_2f. apply Qle_bool_iff in Hx. now rewrite Hx.
Qed.

Lemma get_network_stats_eq (inv : Inventory) (net_io : NetIO) :
  net_io_counters inv = Ok net_io ->
  get_network_stats inv
  = ([ banner; "NETWORK STATISTICS"; banner;
       "Bytes Sent:     " ++ format_mb (bytes_sent net_io) ++ " MB";
       "Bytes Received: " ++ format_mb (bytes_recv net_io) ++ " MB";
       "Packets Sent:   " ++ str_int (packets_sent net_io);
       "Packets Recv:   " ++ str_int (packets_recv net_io);
       "Errors In:      " ++ str_int (errin net_io);
       "Errors Out:     " ++ str_int (errout net_io);
       "" ]%string, Ok tt).
Proof.
  intros H. unfold get_network_stats. rewrite H.
  rewrite !bind_print. unfold call. rewrite bind_ok, !bind_print. reflexivity.
Qed.

(** C8: both places that show megabytes, the interface statistics and the
    read and write figures of a process, divide the byte count by
    1,000,000 and show the quotient with two decimals.  For a count below
    [2^53] the number shown, in hundredths of a megabyte, is within 5000
    bytes of the count, so it is the count over 1,000,000 rounded to two
    places; 10,000,000 bytes are shown as "10.00" and 1,048,576 bytes as
    "1.05". *)
Theorem megabyte_conversion :
  (forall b : Z,
     (0 <= b < 2 ^ 53)%Z ->
     exists c : Z,
       format_mb b = (str_int (c / 100) ++ "." ++ two_digits (c mod 100))%string
       /\ String.length (two_digits (c mod 100)) = 2
       /\ (0 <= c)%Z
       /\ (Z.abs (c * 10000 - b) <= 5000)%Z)
  /\ format_mb 10000000 = "10.00"
  /\ format_mb 1048576 = "1.05"
  /\ (forall (inv : Inventory) (net_io : NetIO),
        net_io_counters inv = Ok net_io ->
        In ("Bytes Sent:     " ++ format_mb (bytes_sent net_io) ++ " MB")%string
           (printed (get_network_stats inv))
        /\ In ("Bytes Received: " ++ format_mb (bytes_recv net_io) ++ " MB")%string
             (printed (get_network_stats inv)))
  /\ (forall (proc : Proc) (name : string) (read_bytes write_bytes : Z),
        usage_figures_line (high_entry proc name read_bytes write_bytes)
        = ("    Read: " ++ format_mb read_bytes ++ " MB, Write: "
             ++ format_mb write_bytes ++ " MB")%string).
Proof.
  split; [|split; [vm_compute; reflexivity|split; [vm_compute; reflexivity|split]]].
  - intros b Hb. destruct (hundredths_mb_bound b Hb) as (Hc0 & Hc & Hx).
    exists (hundredths (truediv b 1000000)).
    split; [unfold format_mb; now apply fmt_2f_nonneg|].
    split; [|split; assumption].
    apply two_digits_length. apply Z.mod_pos_bound. lia.
  - intros inv net_io H. rewrite (get_network_stats_eq inv net_io H).
    unfold printed. cbn [fst In]. split; auto 10.
  - reflexivity.
Qed.

Lemma megabyte_conversion_witness :
  exists c : Z,
    format_mb 123456789
    = (str_int (c / 100) ++ "." ++ two_digits (c mod 100))%string
    /\ String.length (two_digits (c mod 100)) = 2
    /\ (0 <= c)%Z
    /\ (Z.abs (c * 10000 - 123456789) <= 5000)%Z.
Proof.
  apply (proj1 megabyte_conversion 123456789%Z).
  split; [discriminate|reflexivity].
Defined.

(** The model of the floats gives the values of IEEE 754 binary64
    arithmetic on byte counts of every magnitude that was tried. *)
Lemma float_model_agrees_with_ieee754 :
  forallb agrees_on_division
    [ 1; 2; 3; 7; 10; 4999; 5000; 5001; 1005000; 1015000; 1025000; 1048576;
      10000000; 10000001; 33333333; 66666667; 123456789; 999999999999;
      9007199254740991 ]%Z = true
  /\ forallb agrees_on_sum
       [ (1, 2); (5, 0); (100000, 200000); (10000001, 3); (33333333, 66666667);
         (123456789, 987654321); (9007199254740991, 1) ]%Z = true.
Proof. split; vm_compute; reflexivity. Qed.

(** ** The passes as wholes *)

Lemma monitor_network_connections_eq (inv : Inventory) (connections : list Conn)
      (data : list ConnData) :
  net_connections_active inv = Ok connections ->
  collect_connections connections [] = Ok data ->
  monitor_network_connections inv
  = ([banner; "ACTIVE NETWORK CONNECTIONS"; banner]
       ++ printed (print_connections data), Ok tt).
Proof.
  intros Hc Hd. unfold monitor_network_connections, print, call.
  rewrite Hc. cbn [bind]. rewrite Hd. cbn [bind].
  rewrite print_connections_eq. reflexivity.
Qed.

Lemma check_listening_ports_eq (inv : Inventory) (connections : list Conn)
      (listening : list Listening) :
  net_connections_listen inv = Ok connections ->
  collect_listening connections [] = Ok listening ->
  check_listening_ports inv
  = ([banner; "LISTENING PORTS (Programs waiting for connections)"; banner]
       ++ printed (print_listening listening), Ok tt).
Proof.
  intros Hc Hd. unfold check_listening_ports, print, call.
  rewrite Hc. cbn [bind]. rewrite Hd. cbn [bind].
  rewrite print_listening_eq. reflexivity.
Qed.



(* ================================================================== *)
(** * Further properties of the passes *)

(** ** The loops over the connection table *)

Lemma collect_connections_skip (conn : Conn) (rest : list Conn) (acc : list ConnData) :
  status conn <> "ESTABLISHED" \/ lookup_denied conn ->
  collect_connections (conn :: rest) acc = collect_connections rest acc.
Proof.
  intros H. cbn [collect_connections].
  destruct (String.eqb_spec (status conn) "ESTABLISHED") as [E|E]; [|reflexivity].
  destruct H as [H|[Hp Ho]]; [contradiction|].
  unfold process_name_of. rewrite Hp.
  destruct (owner conn) as [n|[m|m|m|m]]; try contradiction; reflexivity.
Qed.

Lemma collect_listening_skip (conn : Conn) (rest : list Conn) (acc : list Listening) :
  status conn <> "LISTEN" \/ lookup_denied conn ->
  collect_listening (conn :: rest) acc = collect_listening rest acc.
Proof.
  intros H. cbn [collect_listening].
  destruct (String.eqb_spec (status conn) "LISTEN") as [E|E]; [|reflexivity].
  destruct H as [H|[Hp Ho]]; [contradiction|].
  unfold process_name_of. rewrite Hp.
  destruct (owner conn) as [n|[m|m|m|m]]; try contradiction; reflexivity.
Qed.

(** X1: in Active Connections a connection that is not ESTABLISHED, or
    whose owner lookup fails with NoSuchProcess or AccessDenied, leaves no
    trace: the loop gives what it gives for the table without it. *)
Theorem active_lookup_failure_skips :
  forall (pre post : list Conn) (conn : Conn),
    status conn <> "ESTABLISHED" \/ lookup_denied conn ->
    collect_connections (pre ++ conn :: post) []
    = collect_connections (pre ++ post) [].
Proof.
  intros pre post conn H.
  rewrite !collect_connections_app. f_equal. now apply collect_connections_skip.
Qed.

Lemma active_lookup_failure_skips_witness :
  collect_connections ([sample_owned] ++ sample_denied :: [sample_unowned]) []
  = collect_connections ([sample_owned] ++ [sample_unowned]) [].
Proof.
  apply active_lookup_failure_skips.
  right. split; [reflexivity|exact I].
Defined.

(** X2: in Listening Ports a connection that is not in state LISTEN, or
    whose owner lookup fails with NoSuchProcess or AccessDenied, is passed
    over; the lookup comes before the local address is read, so this
    holds also when the address is absent. *)
Theorem listening_lookup_failure_skips :
  forall (pre post : list Conn) (conn : Conn),
    status conn <> "LISTEN" \/ lookup_denied conn ->
    collect_listening (pre ++ conn :: post) []
    = collect_listening (pre ++ post) [].
Proof.
  intros pre post conn H.
  rewrite !collect_listening_app. f_equal. now apply collect_listening_skip.
Qed.

Lemma listening_lookup_failure_skips_witness :
  collect_listening ([sample_listen_idle] ++ sample_listen_denied :: []) []
  = collect_listening ([sample_listen_idle] ++ []) [].
Proof.
  apply listening_lookup_failure_skips.
  right. split; [reflexivity|exact I].
Defined.

(** X3: the process id [0] counts as no process id: the owner is not
    looked up, the connection is recorded under the name "Unknown" and
    keeps the id [0], in both passes. *)
Theorem pid_zero_is_unknown :
  forall (conn : Conn) (rest : list Conn),
    pid conn = Some 0%Z ->
    (status conn = "ESTABLISHED" ->
     forall acc,
       collect_connections (conn :: rest) acc
       = collect_connections rest (acc ++ [idle_connection conn]))
    /\ (status conn = "LISTEN" ->
        forall acc a,
          laddr conn = Some a ->
          collect_listening (conn :: rest) acc
          = collect_listening rest (acc ++ [idle_listener a])).
Proof.
  intros conn rest Hp. split.
  - intros Hs acc. cbn [collect_connections]. unfold process_name_of, idle_connection.
    rewrite Hp, Hs. reflexivity.
  - intros Hs acc a Ha. cbn [collect_listening]. unfold process_name_of, idle_listener.
    rewrite Hp, Hs, Ha. reflexivity.
Qed.

Lemma pid_zero_is_unknown_witness :
  collect_listening [sample_listen_idle] []
  = Ok [ {| l_process := "Unknown"; l_pid := Some 0%Z; l_port := 445;
            l_address := "0.0.0.0" |} ].
Proof.
  destruct (pid_zero_is_unknown sample_listen_idle [] eq_refl) as [_ H].
  rewrite (H eq_refl [] {| ip := "0.0.0.0"; port := 445 |} eq_refl). reflexivity.
Defined.

(** X4: a LISTEN connection whose owner is found but whose local address
    is absent ends Listening Ports with an AttributeError: the entries
    collected before it are not printed, only the header of the section
    is. *)
Theorem listening_without_address_raises :
  forall (inv : Inventory) (pre post : list Conn) (conn : Conn)
         (l1 : list Listening) (name : string),
    net_connections_listen inv = Ok (pre ++ conn :: post) ->
    collect_listening pre [] = Ok l1 ->
    status conn = "LISTEN" ->
    process_name_of conn = Ok name ->
    laddr conn = None ->
    collect_listening (pre ++ conn :: post) [] = Raise no_port_error
    /\ check_listening_ports inv
       = ([banner; "LISTENING PORTS (Programs waiting for connections)"; banner],
          Raise no_port_error).
Proof.
  intros inv pre post conn l1 name Hinv Hpre Hs Hn Ha.
  assert (H : collect_listening (pre ++ conn :: post) [] = Raise no_port_error).
  { rewrite collect_listening_app, Hpre. cbn [collect_listening].
    rewrite Hs, Hn, Ha. reflexivity. }
  split; [exact H|].
  unfold check_listening_ports, print, call. rewrite Hinv. cbn [bind].
  rewrite H. reflexivity.
Qed.

Lemma listening_without_address_raises_witness :
  check_listening_ports
    (inventory_with_connections [sample_listen_idle; sample_listen_unbound])
  = ([banner; "LISTENING PORTS (Programs waiting for connections)"; banner],
     Raise no_port_error).
Proof.
  apply (listening_without_address_raises
           (inventory_with_connections [sample_listen_idle; sample_listen_unbound])
           [sample_listen_idle] [] sample_listen_unbound
           [idle_listener {| ip := "0.0.0.0"; port := 445 |}] "launcher");
    reflexivity.
Defined.

Lemma collect_connections_none (connections : list Conn) :
  Forall (fun c => status c <> "ESTABLISHED") connections ->
  collect_connections connections [] = Ok [].
Proof.
  induction 1 as [|c l Hc Hl IH]; [reflexivity|].
  rewrite collect_connections_skip by now left. exact IH.
Qed.

(** X5: when no connection of the table is ESTABLISHED, Active Connections
    prints its header, no group, and the total 0. *)
Theorem no_established_connections :
  forall (inv : Inventory) (connections : list Conn),
    net_connections_active inv = Ok connections ->
    Forall (fun c => status c <> "ESTABLISHED") connections ->
    monitor_network_connections inv
    = ([ banner; "ACTIVE NETWORK CONNECTIONS"; banner;
         String "010" "Total active connections: 0"; "" ], Ok tt).
Proof.
  intros inv connections Hinv Hall.
  rewrite (monitor_network_connections_eq inv connections []);
    [reflexivity|assumption|now apply collect_connections_none].
Qed.

Lemma no_established_connections_witness :
  monitor_network_connections
    (inventory_with_connections [sample_time_wait; sample_listen_idle])
  = ([ banner; "ACTIVE NETWORK CONNECTIONS"; banner;
       String "010" "Total active connections: 0"; "" ], Ok tt).
Proof.
  apply (no_established_connections _ [sample_time_wait; sample_listen_idle]).
  - reflexivity.
  - repeat constructor; discriminate.
Defined.

(** ** Process analysis: what ends the scan and what does not *)

(** X6: one iteration of the scan raises in exactly two cases: the name
    of the process is [None], or [io_counters] raises something other than
    NoSuchProcess, AccessDenied and AttributeError.  The exception is the
    one of the failing operation. *)
Theorem scan_process_raises_iff :
  forall (st : Scan) (proc : Proc) (e : exn),
    scan_process st proc = Raise e <->
    (info_name (info proc) = None /\ e = no_lower_error)
    \/ (exists name m,
          info_name (info proc) = Some name
          /\ io_counters proc = Raise (OtherException m)
          /\ e = OtherException m).
Proof.
  intros st proc e. unfold scan_process, check_network_usage, no_lower_error.
  destruct (info_name (info proc)) as [name|].
  - destruct (io_counters proc) as [[r w]|[m|m|m|m]].
    + destruct ((10000000 <? r)%Z || (10000000 <? w)%Z);
        (split; [discriminate|intros [[H _]|(n & m & _ & H & _)]; discriminate]).
    + split; [discriminate|intros [[H _]|(n & m' & _ & H & _)]; discriminate].
    + split; [discriminate|intros [[H _]|(n & m' & _ & H & _)]; discriminate].
    + split; [discriminate|intros [[H _]|(n & m' & _ & H & _)]; discriminate].
    + split.
      * intros [= <-]. right. now exists name, m.
      * intros [[H _]|(n & m' & _ & H & ->)]; [discriminate|congruence].
  - split.
    + intros [= <-]. now left.
    + intros [[_ ->]|(n & m & H & _)]; [reflexivity|discriminate].
Qed.



(** X8: a fault in the scan loses what the scan had found: Process
    Analysis prints its header and nothing else, also when processes
    scanned before the fault had suspicious names.  A process whose name is
    [None] is such a fault. *)
Theorem scan_fault_loses_findings :
  forall (inv : Inventory) (pre post : list Proc) (proc : Proc) (st1 : Scan) (e : exn),
    process_iter inv = Ok (pre ++ proc :: post) ->
    scan_processes pre no_findings = Ok st1 ->
    scan_process st1 proc = Raise e ->
    check_suspicious_processes inv = (process_analysis_header, Raise e).
Proof.
  intros inv pre post proc st1 e Hinv Hpre Hproc.
  unfold check_suspicious_processes, call. fold no_findings.
  rewrite !bind_print, Hinv, bind_ok, scan_processes_app, Hpre.
  cbn [scan_processes]. rewrite Hproc. reflexivity.
Qed.

Lemma scan_fault_loses_findings_witness :
  check_suspicious_processes
    (inventory_with_processes
       [sample_proc 11 "CryptoMiner.exe" (Ok (0, 0)%Z); nameless_proc])
  = (process_analysis_header, Raise no_lower_error).
Proof.
  apply (scan_fault_loses_findings _ [sample_proc 11 "CryptoMiner.exe" (Ok (0, 0)%Z)] []
           nameless_proc
           {| suspicious_processes := [info (sample_proc 11 "CryptoMiner.exe" (Ok (0, 0)%Z))];
              high_network_processes := [] |});
    reflexivity.
Defined.





(** ** The lines of the sections and of the handler *)

Lemma printed_bind_print {B} (s : string) (f : unit -> Pass B) :
  printed (bind (print s) f) = s :: printed (f tt).
Proof. now rewrite bind_print. Qed.

Ltac plain_leaf :=
  unfold plain_line, is_title, section_titles, hint_line, error_line, banner;
  split; [simpl; reflexivity|];
  split; [intros H; simpl in H; discriminate H
         |intros e H; simpl in H; discriminate H].

Ltac plain_lines :=
  repeat first
    [ apply Forall_nil
    | apply Forall_cons; [plain_leaf|]
    | apply Forall_printed_bind; [|intros]
    | apply Forall_printed_for_each; intros ].

Ltac header_then_body :=
  do 3 (rewrite printed_bind_print; cbv beta);
  eexists; split; [reflexivity|].

Lemma get_system_info_header (inv : Inventory) :
  has_header (get_system_info inv) "SYSTEM INFORMATION".
Proof.
  unfold has_header, get_system_info. header_then_body.
  plain_lines; unfold print, call, printed; cbn [fst]; plain_lines.
Qed.

Lemma get_network_stats_header (inv : Inventory) :
  has_header (get_network_stats inv) "NETWORK STATISTICS".
Proof.
  unfold has_header, get_network_stats. header_then_body.
  plain_lines; unfold print, call, printed; cbn [fst]; plain_lines.
Qed.

Lemma monitor_network_connections_header (inv : Inventory) :
  has_header (monitor_network_connections inv) "ACTIVE NETWORK CONNECTIONS".
Proof.
  unfold has_header, monitor_network_connections, print_connections. header_then_body.
  plain_lines; try (unfold print, call, printed; cbn [fst]; plain_lines).
  match goal with |- context [print_group ?g] => destruct g as [name conns] end.
  unfold print_group.
  plain_lines; try (unfold print, call, printed; cbn [fst]; plain_lines).
  destruct (5 <? length conns)%nat; unfold print, ret, printed; cbn [fst]; plain_lines.
Qed.

Lemma check_listening_ports_header (inv : Inventory) :
  has_header (check_listening_ports inv)
    "LISTENING PORTS (Programs waiting for connections)".
Proof.
  unfold has_header, check_listening_ports, print_listening. header_then_body.
  plain_lines; try (unfold print, call, printed, listening_line; cbn [fst]; plain_lines).
Qed.

Lemma check_suspicious_processes_header (inv : Inventory) :
  has_header (check_suspicious_processes inv) "RUNNING PROCESSES ANALYSIS".
Proof.
  unfold has_header, check_suspicious_processes. header_then_body.
  plain_lines; try (unfold print, call, printed; cbn [fst]; plain_lines).
  - unfold print_suspicious.
    match goal with |- context [suspicious_processes ?st] =>
      destruct (suspicious_processes st) end.
    + unfold print, printed; cbn [fst]; plain_lines.
    + plain_lines; unfold print, printed; cbn [fst]; plain_lines.
  - unfold print_high_network.
    match goal with |- context [high_network_processes ?st] =>
      destruct (high_network_processes st) end.
    + unfold ret, printed; cbn [fst]; plain_lines.
    + plain_lines; unfold print, printed; cbn [fst]; plain_lines.
Qed.

(** X10: every pass prints its header, the banner of sixty "=", its
    title and the banner again, before it asks the inventory anything, so
    the header is printed also by a pass that fails; no other line of a
    pass is a section title, the hint or an error line. *)
Theorem every_pass_prints_its_header_first :
  forall inv : Inventory,
    Forall2 has_header (passes inv) (firstn 5 section_titles)
    /\ String.length banner = 60.
Proof.
  intros inv. split; [|reflexivity].
  unfold passes. cbn [firstn section_titles].
  repeat constructor;
    auto using get_system_info_header, get_network_stats_header,
      monitor_network_connections_header, check_listening_ports_header,
      check_suspicious_processes_header.
Qed.

(** ** The report as a whole *)

Lemma for_each_passes_ok (l : list (Pass unit)) :
  Forall completed l ->
  for_each l (fun p => p) = (flat_map printed l, Ok tt).
Proof.
  intros H. apply for_each_ok. now apply Forall_forall.
Qed.

(** The sequence of the passes either runs to its end or stops at the
    first pass that raises. *)
Lemma passes_run_or_stop (l : list (Pass unit)) :
  Forall completed l
  \/ exists before p after e,
       l = before ++ p :: after /\ Forall completed before /\ result p = Raise e.
Proof.
  induction l as [|q l IH]; [left; constructor|].
  destruct (result q) as [[]|e] eqn:Eq.
  - destruct IH as [IH|(before & p & after & e & -> & Hb & Hp)].
    + left. constructor; [exact Eq|assumption].
    + right. exists (q :: before), p, after, e.
      split; [reflexivity|]. split; [|assumption].
      constructor; [exact Eq|assumption].
  - right. exists [], q, l, e.
    split; [reflexivity|]. split; [constructor|exact Eq].
Qed.

Lemma report_completed (inv : Inventory) :
  Forall completed (passes inv) ->
  report inv = (flat_map printed (passes inv) ++ printed recommendations, Ok tt).
Proof.
  intros H. rewrite report_passes, (for_each_passes_ok _ H), bind_ok. reflexivity.
Qed.

Lemma report_faulted (inv : Inventory) (before after : list (Pass unit))
      (p : Pass unit) (e : exn) :
  passes inv = before ++ p :: after ->
  Forall completed before ->
  result p = Raise e ->
  report inv = (flat_map printed before ++ printed p, Raise e).
Proof.
  intros Hps Hb Hp.
  now rewrite report_passes, Hps, (for_each_fault _ _ _ _ Hb Hp), bind_raise.
Qed.

Lemma report_ok_iff (inv : Inventory) :
  result (report inv) = Ok tt <-> Forall completed (passes inv).
Proof.
  split.
  - intros H.
    destruct (passes_run_or_stop (passes inv))
      as [Hall|(before & p & after & e & Hps & Hb & Hp)]; [assumption|].
    rewrite (report_faulted inv before after p e Hps Hb Hp) in H. discriminate H.
  - intros H. now rewrite (report_completed inv H).
Qed.

Lemma has_header_plain_tail (p : Pass unit) (t : string) (l : string) :
  has_header p t -> In l (printed p) -> l = banner \/ l = t \/ plain_line l.
Proof.
  intros (body & -> & Hbody) [<-|[<-|[<-|H]]]; auto.
  right; right. rewrite Forall_forall in Hbody. now apply Hbody.
Qed.

Lemma every_pass_header_aux (inv : Inventory) (p : Pass unit) :
  In p (passes inv) ->
  exists t, In t (firstn 5 section_titles) /\ has_header p t.
Proof.
  unfold passes. cbn [firstn section_titles In].
  intros [<-|[<-|[<-|[<-|[<-|[]]]]]]; eexists; (split; [|
    first [ apply get_system_info_header | apply get_network_stats_header
          | apply monitor_network_connections_header
          | apply check_listening_ports_header
          | apply check_suspicious_processes_header ]]); auto 10.
Qed.

Lemma pass_lines_not_hint (inv : Inventory) (p : Pass unit) (l : string) :
  In p (passes inv) -> In l (printed p) -> l <> hint_line.
Proof.
  intros Hp Hl.
  destruct (every_pass_header_aux inv p Hp) as [t [Ht Hh]].
  destruct (has_header_plain_tail p t l Hh Hl) as [->|[->|(_ & H & _)]];
    [discriminate| |assumption].
  intros ->. unfold section_titles, hint_line in Ht. cbn [firstn In] in Ht.
  repeat (destruct Ht as [Ht|Ht]; [discriminate Ht|]). exact Ht.
Qed.

Lemma main_of_report (inv : Inventory) :
  main inv
  = (title_line
       :: printed (report inv)
       ++ match result (report inv) with
          | Ok _ => []
          | Raise e => [error_line e; hint_line]
          end, Ok tt).
Proof.
  unfold main. rewrite bind_print. fold title_line.
  destruct (report inv) as [o [[]|e]]; unfold printed, result; cbn.
  - now rewrite app_nil_r.
  - reflexivity.
Qed.

Lemma recommendations_lines :
  ~ In hint_line (printed recommendations)
  /\ In "RECOMMENDATIONS:" (printed recommendations)
  /\ filter is_title (printed recommendations) = ["RECOMMENDATIONS:"].
Proof.
  split; [|split; [|vm_compute; reflexivity]].
  - intros H. vm_compute in H.
    repeat (destruct H as [H|H]; [discriminate H|]). exact H.
  - vm_compute. auto.
Qed.

(** X11: the hint to run as administrator is printed exactly when the
    body of the report raised, and the Recommendations block exactly when
    all five passes ran to their end: a report shows one of the two, never
    both and never neither. *)
Theorem hint_or_recommendations :
  forall inv : Inventory,
    (In hint_line (printed (main inv)) <-> exists e, result (report inv) = Raise e)
    /\ (In "RECOMMENDATIONS:" (printed (main inv)) <-> Forall completed (passes inv))
    /\ ((exists e, result (report inv) = Raise e) <-> ~ Forall completed (passes inv)).
Proof.
  intros inv.
  assert (Hcases := passes_run_or_stop (passes inv)).
  assert (Hfault : (exists e, result (report inv) = Raise e)
                   <-> ~ Forall completed (passes inv)).
  { split.
    - intros [e He] Hall. apply report_ok_iff in Hall. congruence.
    - intros Hn. destruct Hcases as [Hall|(before & p & after & e & Hps & Hb & Hp)];
        [contradiction|].
      exists e. now rewrite (report_faulted inv before after p e Hps Hb Hp). }
  split; [|split; [|exact Hfault]].
  - split.
    + intros Hin. apply Hfault. intros Hall.
      rewrite main_of_report, (report_completed inv Hall) in Hin.
      unfold printed at 1, result in Hin. cbn [fst snd] in Hin.
      rewrite app_nil_r in Hin. unfold printed at 1 in Hin. cbn [fst] in Hin.
      destruct Hin as [Hin|Hin]; [discriminate Hin|].
      apply in_app_or in Hin as [Hin|Hin].
      * apply in_flat_map in Hin as (p & Hp & Hl).
        now apply (pass_lines_not_hint inv p hint_line Hp Hl).
      * now apply (proj1 recommendations_lines).
    + intros [e He]. rewrite main_of_report, He. unfold printed at 1. cbn [fst].
      right. apply in_or_app. right. right. now left.
  - split.
    + intros Hin.
      destruct Hcases as [Hall|(before & p & after & e & Hps & Hb & Hp)];
        [assumption|exfalso].
      rewrite (main_fault inv before after p e Hps Hb Hp) in Hin.
      unfold printed in Hin. cbn [fst] in Hin.
      pose proof (later_titles_absent inv before after p e Hps) as Hlater.
      rewrite Forall_forall in Hlater. apply (Hlater "RECOMMENDATIONS:"); [|exact Hin].
      apply (f_equal (@length _)) in Hps. rewrite length_app in Hps. cbn in Hps.
      destruct (length before) as [|[|[|[|[|n]]]]]; cbn; [tauto..|lia].
    + intros Hall. rewrite main_of_report, (report_completed inv Hall).
      unfold printed at 1 2. cbn [fst]. right.
      apply in_or_app. left. apply in_or_app. right.
      apply (proj1 (proj2 recommendations_lines)).
Qed.

Lemma has_header_titles (p : Pass unit) (t : string) :
  has_header p t -> is_title t = true -> filter is_title (printed p) = [t].
Proof.
  intros (body & -> & Hbody) Ht. cbn [filter]. rewrite Ht.
  change (is_title banner) with false. cbn iota. f_equal.
  induction Hbody as [|l body [Hl _] _ IH]; [reflexivity|].
  cbn [filter]. now rewrite Hl.
Qed.

(** X12: when all five passes run to their end, the report is the title
    line, the lines of the five passes in their order and the
    Recommendations block, with no error line; the six section titles
    appear once each, in the fixed order. *)
Theorem complete_report :
  forall inv : Inventory,
    Forall completed (passes inv) ->
    main inv
    = (title_line :: flat_map printed (passes inv) ++ printed recommendations, Ok tt)
    /\ filter is_title (printed (main inv)) = section_titles.
Proof.
  intros inv Hall.
  assert (Hmain : main inv
                  = (title_line :: flat_map printed (passes inv)
                       ++ printed recommendations, Ok tt)).
  { rewrite main_of_report, (report_completed inv Hall).
    unfold printed at 1, result. cbn [fst snd]. now rewrite app_nil_r. }
  split; [exact Hmain|].
  rewrite Hmain. unfold printed at 1. cbn [fst filter].
  change (is_title title_line) with false. cbn iota.
  rewrite filter_app, (proj2 (proj2 recommendations_lines)).
  unfold passes. cbn [flat_map]. rewrite !filter_app, app_nil_r.
  rewrite (has_header_titles _ _ (get_system_info_header inv) eq_refl).
  rewrite (has_header_titles _ _ (get_network_stats_header inv) eq_refl).
  rewrite (has_header_titles _ _ (monitor_network_connections_header inv) eq_refl).
  rewrite (has_header_titles _ _ (check_listening_ports_header inv) eq_refl).
  rewrite (has_header_titles _ _ (check_suspicious_processes_header inv) eq_refl).
  reflexivity.
Qed.

Lemma complete_report_witness :
  filter is_title (printed (main (inventory_with_processes []))) = section_titles.
Proof.
  apply (complete_report (inventory_with_processes [])).
  repeat constructor.
Defined.

(** ** The dictionary of the groups *)

Lemma dict_append_get (d : Groups) (k k' : string) (v : ConnData) :
  dict_get (dict_append d k v) k'
  = if String.eqb k' k then dict_get d k ++ [v] else dict_get d k'.
Proof.
  induction d as [|[k0 vs] d IH]; cbn [dict_append dict_get].
  - destruct (String.eqb k' k); reflexivity.
  - destruct (String.eqb_spec k k0) as [->|Hk]; cbn [dict_get].
    + destruct (String.eqb k' k0); reflexivity.
    + rewrite IH. destruct (String.eqb_spec k' k0) as [->|Hk'].
      * destruct (String.eqb_spec k0 k) as [E|_]; [congruence|reflexivity].
      * reflexivity.
Qed.

Lemma dict_append_fst (d : Groups) (k : string) (v : ConnData) :
  map fst (dict_append d k v) = add_key (map fst d) k.
Proof.
  unfold add_key. induction d as [|[k0 vs] d IH]; [reflexivity|].
  cbn [dict_append map fst existsb].
  destruct (String.eqb k k0); cbn [orb map fst]; [reflexivity|].
  rewrite IH. now destruct (existsb (String.eqb k) (map fst d)).
Qed.

Lemma dict_append_Permutation (d : Groups) (k : string) (v : ConnData) :
  Permutation (flat_map snd (dict_append d k v)) (flat_map snd d ++ [v]).
Proof.
  induction d as [|[k0 vs] d IH]; [reflexivity|].
  cbn [dict_append]. destruct (String.eqb k k0); cbn [flat_map snd].
  - rewrite <- !app_assoc. apply Permutation_app_head. apply Permutation_app_comm.
  - rewrite IH. now rewrite app_assoc.
Qed.

(** X13: appending to the entry of a key in the dictionary of the groups
    changes that entry only: it gets the connection at its end, the
    entries of the other keys stay, and a key that was not there is added
    after the keys that were.  So the grouping loses no connection and
    repeats none, and sorting the groups does not either. *)
Theorem grouping_keeps_every_connection :
  (forall (d : Groups) (k k' : string) (v : ConnData),
     dict_get (dict_append d k v) k'
     = if String.eqb k' k then dict_get d k ++ [v] else dict_get d k')
  /\ (forall (d : Groups) (k : string) (v : ConnData),
        map fst (dict_append d k v) = add_key (map fst d) k)
  /\ (forall data : list ConnData,
        Permutation (flat_map snd (group_connections data)) data
        /\ Permutation (flat_map snd (sorted_items (group_connections data))) data
        /\ NoDup (map fst (group_connections data))).
Proof.
  split; [exact dict_append_get|]. split; [exact dict_append_fst|].
  intros data.
  assert (Hperm : Permutation (flat_map snd (group_connections data)) data).
  { unfold group_connections.
    induction data as [|c data IH] using rev_ind; [reflexivity|].
    rewrite fold_left_app. cbn [fold_left].
    rewrite dict_append_Permutation. now apply Permutation_app_tail. }
  split; [exact Hperm|]. split.
  - rewrite (Permutation_flat_map snd (sorted_items_Permutation _)). exact Hperm.
  - rewrite group_keys. apply first_seen_NoDup.
Qed.

Lemma group_lines_length (name : string) (conns : list ConnData) :
  conns <> [] ->
  2 <= length (group_lines name conns) <= 7
  /\ length (group_lines name conns) <= 2 * length conns.
Proof.
  intros Hne. destruct conns as [|c conns]; [congruence|].
  unfold group_lines. cbn [length]. rewrite length_app, length_map, length_firstn.
  cbn [length]. destruct (Nat.ltb_spec 5 (S (length conns))); cbn [length]; lia.
Qed.

Lemma list_sum_bounds {A} (f : A -> nat) (lo hi : nat) (l : list A) :
  (forall x, In x l -> lo <= f x <= hi) ->
  lo * length l <= list_sum (map f l) <= hi * length l.
Proof.
  induction l as [|x l IH]; intros H; [cbn; lia|].
  cbn [map length]. rewrite list_sum_cons.
  pose proof (H x (or_introl eq_refl)).
  assert (lo * length l <= list_sum (map f l) <= hi * length l)
    by (apply IH; intros; apply H; now right).
  lia.
Qed.

(** X14: the Active Connections block grows with the number of process
    names, not with the number of connections: each name takes between two
    and seven lines, and two lines close the block.  There are at most as
    many names as connections. *)
Theorem connections_block_size :
  forall data : list ConnData,
    let groups := sorted_items (group_connections data) in
    2 * length groups + 2 <= length (printed (print_connections data))
    /\ length (printed (print_connections data)) <= 7 * length groups + 2
    /\ length groups <= length data.
Proof.
  intros data groups.
  assert (Hg : forall g, In g groups -> snd g <> []).
  { intros [name conns] Hin. now apply sorted_items_In in Hin. }
  rewrite print_connections_eq. unfold printed. cbn [fst].
  rewrite length_app, length_flat_map. cbn [length]. fold groups.
  pose proof (list_sum_bounds (fun g => length (group_lines (fst g) (snd g))) 2 7 groups)
    as Hlines.
  pose proof (list_sum_bounds (fun g => length (snd g)) 1 (length data) groups) as Hsize.
  assert (Hsum : list_sum (map (fun g => length (snd g)) groups) = length data).
  { unfold groups.
    rewrite (Permutation_list_sum (Permutation_map _ (sorted_items_Permutation _))).
    rewrite group_connections_spec, map_map. cbn [snd].
    apply members_partition; [apply first_seen_NoDup|].
    intros c Hc. apply first_seen_In. now exists c. }
  assert (H1 : 2 * length groups
               <= list_sum (map (fun g => length (group_lines (fst g) (snd g))) groups)
               <= 7 * length groups).
  { apply Hlines. intros g Hin. apply group_lines_length. now apply Hg. }
  assert (H2 : forall g, In g groups -> 1 <= length (snd g) <= length data).
  { intros g Hin. pose proof (Hg g Hin) as Hne. split.
    - destruct (snd g); [congruence|cbn; lia].
    - destruct g as [name conns]. apply sorted_items_In in Hin as [-> _].
      unfold members. cbn [snd]. apply filter_length_le. }
  specialize (Hsize H2). lia.
Qed.

(** ** Figures of the high-network list *)

Lemma truediv_mb_above_ten (b : Z) :
  (10000000 < b)%Z -> shows_ten_or_more (truediv b 1000000).
Proof.
  intros Hb. unfold shows_ten_or_more.
  pose proof (truediv_mb_err b ltac:(lia)) as Herr. cbv zeta in Herr.
  assert (HB : (inject_Z 10000001 <= inject_Z b)%Q) by (rewrite <- Zle_Qle; lia).
  change (inject_Z 10000001) with 10000001%Q in HB.
  assert (Hq : (inject_Z b / 1000000 * 1000000 == inject_Z b)%Q) by (field; discriminate).
  set (q := (inject_Z b / 1000000)%Q) in *.
  set (x := truediv b 1000000) in *.
  assert (Hx : (10 < x)%Q) by lra.
  split; [exact Hx|].
  unfold hundredths.
  pose proof (rne_spec (Qabs x * 100)) as Hc.
  assert (Ha : (Qabs x == x)%Q) by (apply Qabs_pos; lra).
  set (c := rne (Qabs x * 100)) in *. set (ax := Qabs x) in *.
  assert (Hlt : (inject_Z 999 < inject_Z c)%Q)
    by (change (inject_Z 999) with 999%Q; lra).
  rewrite <- Zlt_Qlt in Hlt. lia.
Qed.

(** X15: every entry of the high-network list of a finished scan has a
    read figure or a write figure above ten megabytes as a float, and that
    figure is printed as 10.00 or more: no process is listed with both
    figures shown below 10.00. *)
Theorem listed_usage_is_above_ten :
  forall (procs : list Proc) (st : Scan),
    scan_processes procs no_findings = Ok st ->
    Forall (fun h => shows_ten_or_more (read_mb h) \/ shows_ten_or_more (write_mb h))
           (high_network_processes st).
Proof.
  intros procs st H. apply scan_processes_spec in H as [_ Hh].
  cbn [no_findings high_network_processes app] in Hh. rewrite Hh.
  apply Forall_forall. intros h Hin.
  apply in_flat_map in Hin as (proc & _ & Hin).
  unfold network_entries in Hin.
  destruct (info_name (info proc)) as [name|]; [|destruct Hin].
  destruct (io_counters proc) as [[r w]|e]; [|destruct Hin].
  destruct (Z.ltb_spec 10000000 r) as [Hr|Hr]; cbn [orb] in Hin.
  - destruct Hin as [<-|[]]. left. now apply truediv_mb_above_ten.
  - destruct (Z.ltb_spec 10000000 w) as [Hw|Hw]; [|destruct Hin].
    destruct Hin as [<-|[]]. right. now apply truediv_mb_above_ten.
Qed.

Lemma listed_usage_is_above_ten_witness :
  Forall (fun h => shows_ten_or_more (read_mb h) \/ shows_ten_or_more (write_mb h))
         sample_high.
Proof.
  apply (listed_usage_is_above_ten sample_busy_procs
           {| suspicious_processes := []; high_network_processes := sample_high |}).
  reflexivity.
Defined.

Lemma StronglySorted_app_inv {A} (R : A -> A -> Prop) (l1 l2 : list A) :
  StronglySorted R (l1 ++ l2) ->
  forall a b, In a l1 -> In b l2 -> R a b.
Proof.
  induction l1 as [|x l1 IH]; intros Hs a b Ha Hb; [destruct Ha|].
  cbn [app] in Hs. apply StronglySorted_inv in Hs as [Hs Hx].
  destruct Ha as [<-|Ha].
  - rewrite Forall_forall in Hx. apply Hx. apply in_or_app. now right.
  - now apply IH.
Qed.

(** X16: the entries left out of the high-network block are the smallest:
    the shown and the omitted entries together are the whole list, and no
    omitted entry has a larger usage than a shown one. *)
Theorem omitted_usage_is_smallest :
  forall high : list HighNet,
    let omitted := skipn 10 (sorted_by_usage high) in
    Permutation (top_network high ++ omitted) high
    /\ length omitted = length high - 10
    /\ forall a b, In a (top_network high) -> In b omitted ->
                   (usage_key b <= usage_key a)%Q.
Proof.
  intros high omitted. unfold omitted, top_network.
  split; [|split].
  - rewrite firstn_skipn. apply sorted_Permutation.
  - rewrite length_skipn. unfold sorted_by_usage. now rewrite sorted_length.
  - apply (StronglySorted_app_inv (fun a b => (usage_key b <= usage_key a)%Q)).
    rewrite firstn_skipn. apply sorted_by_usage_sorted.
Qed.

Lemma omitted_usage_is_smallest_witness :
  (usage_key (high_entry (busy_proc 12 13000000 0) "worker" 13000000 0)
   <= usage_key (high_entry (busy_proc 9 0 20000000) "worker" 0 20000000))%Q.
Proof.
  apply (proj2 (proj2 (omitted_usage_is_smallest sample_high))).
  - vm_compute. repeat (first [left; reflexivity | right]).
  - vm_compute. repeat (first [left; reflexivity | right]).
Defined.

(** ** System Summary and the lookups of Active Connections *)



(** X18: an owner lookup that raises anything but NoSuchProcess and
    AccessDenied ends Active Connections: the connections recorded before
    it are not printed, only the header of the section is. *)
Theorem active_lookup_fault_ends_pass :
  forall (inv : Inventory) (pre post : list Conn) (conn : Conn)
         (d1 : list ConnData) (e : exn),
    net_connections_active inv = Ok (pre ++ conn :: post) ->
    collect_connections pre [] = Ok d1 ->
    status conn = "ESTABLISHED" ->
    lookup_faults conn e ->
    monitor_network_connections inv
    = ([banner; "ACTIVE NETWORK CONNECTIONS"; banner], Raise e).
Proof.
  intros inv pre post conn d1 e Hinv Hpre Hs (Hp & Ho & He).
  assert (H : collect_connections (pre ++ conn :: post) [] = Raise e).
  { rewrite collect_connections_app, Hpre. cbn [collect_connections].
    unfold process_name_of. rewrite Hs, Hp, Ho.
    destruct e; try contradiction; reflexivity. }
  unfold monitor_network_connections, print, call. rewrite Hinv. cbn [bind].
  rewrite H. reflexivity.
Qed.

Lemma active_lookup_fault_ends_pass_witness :
  monitor_network_connections
    (inventory_with_connections [sample_owned; sample_broken_lookup])
  = ([banner; "ACTIVE NETWORK CONNECTIONS"; banner],
     Raise (OtherException "[Errno 5] Input/output error")).
Proof.
  apply (active_lookup_fault_ends_pass _ [sample_owned] [] sample_broken_lookup
           [ {| cd_process := "chrome"; cd_pid := Some 4000%Z;
                cd_local := "10.0.0.5:40001"; cd_remote := "93.184.216.34:443";
                cd_status := "ESTABLISHED" |} ]);
    try reflexivity.
  repeat split.
Defined.

(** ** Rounding of the megabyte figures *)

(** X19: the megabyte figure of a byte count below [2^53] is the count
    over 1,000,000 rounded to the nearest hundredth, unless the count lies
    exactly between two hundredths; there the binary float decides
    (1,015,000 bytes are shown as 1.01, 5,000 bytes as 0.01).  Whole
    megabytes are shown exactly. *)
Theorem format_mb_rounds_to_nearest :
  (forall b : Z,
     (0 <= b < 2 ^ 53)%Z ->
     (b mod 10000 <> 5000)%Z ->
     format_mb b
     = (str_int (nearest_hundredth b / 100) ++ "."
          ++ two_digits (nearest_hundredth b mod 100))%string)
  /\ (forall k : Z,
        (0 <= k < 2 ^ 33)%Z ->
        format_mb (k * 1000000) = (str_int k ++ ".00")%string)
  /\ format_mb 1015000 = "1.01"
  /\ format_mb 5000 = "0.01".
Proof.
  assert (Hgen : forall b : Z,
             (0 <= b < 2 ^ 53)%Z -> (b mod 10000 <> 5000)%Z ->
             format_mb b
             = (str_int (nearest_hundredth b / 100) ++ "."
                  ++ two_digits (nearest_hundredth b mod 100))%string).
  { intros b Hb Htie.
    destruct (hundredths_mb_bound b Hb) as (Hc0 & Hc & Hx).
    unfold format_mb. rewrite (fmt_2f_nonneg _ Hx).
    set (c := hundredths (truediv b 1000000)) in *.
    assert (E : c = nearest_hundredth b).
    { unfold nearest_hundredth.
      apply (Z.div_unique (b + 5000) 10000 c (b + 5000 - 10000 * c)); [left|lia].
      pose proof (Z.div_mod b 10000 ltac:(lia)) as Hdm.
      pose proof (Z.mod_pos_bound b 10000 ltac:(lia)) as Hr.
      set (r := (b mod 10000)%Z) in *. set (q := (b / 10000)%Z) in *.
      assert (Hne : (b - 10000 * c <> 5000)%Z).
      { intros Heq. assert (10000 * (c - q) = r - 5000)%Z by lia.
        assert (c - q = 0)%Z by lia. lia. }
      lia. }
    now rewrite E. }
  split; [exact Hgen|]. split; [|split; vm_compute; reflexivity].
  intros k Hk.
  assert (Hb : (0 <= k * 1000000 < 2 ^ 53)%Z).
  { change (2 ^ 33)%Z with 8589934592%Z in Hk.
    change (2 ^ 53)%Z with 9007199254740992%Z. lia. }
  assert (Hm : ((k * 1000000) mod 10000 = 0)%Z).
  { replace (k * 1000000)%Z with (k * 100 * 10000)%Z by lia. apply Z.mod_mul. lia. }
  rewrite (Hgen _ Hb) by (rewrite Hm; discriminate).
  assert (E : nearest_hundredth (k * 1000000) = (k * 100)%Z).
  { unfold nearest_hundredth. symmetry.
    apply (Z.div_unique (k * 1000000 + 5000) 10000 (k * 100) 5000); lia. }
  rewrite E, Z.div_mul, Z.mod_mul by lia. reflexivity.
Qed.

Lemma format_mb_rounds_to_nearest_witness :
  format_mb 123456789 = "123.46".
Proof.
  rewrite (proj1 format_mb_rounds_to_nearest 123456789%Z).
  - reflexivity.
  - split; [discriminate|reflexivity].
  - discriminate.
Defined.

(** ** The collected records in closed form *)

Lemma collect_connections_step (conn : Conn) (rest : list Conn) :
  (forall e, ~ lookup_faults conn e) ->
  collect_connections (conn :: rest) []
  = append_outcomes (Ok (active_record conn)) (collect_connections rest []).
Proof.
  intros H. cbn [collect_connections]. unfold active_record.
  destruct (String.eqb_spec (status conn) "ESTABLISHED") as [E|E].
  - rewrite E. unfold process_name_of.
    destruct (truthy_pid (pid conn)) eqn:Hp.
    + destruct (owner conn) as [n|[m|m|m|m]] eqn:Ho.
      * now rewrite (collect_connections_acc rest).
      * cbn [append_outcomes]. now destruct (collect_connections rest []).
      * cbn [append_outcomes]. now destruct (collect_connections rest []).
      * exfalso. apply (H (AttributeError m)). now repeat split.
      * exfalso. apply (H (OtherException m)). now repeat split.
    + now rewrite (collect_connections_acc rest).
  - cbn [append_outcomes]. now destruct (collect_connections rest []).
Qed.

Lemma collect_listening_step (conn : Conn) (rest : list Conn) :
  (forall e, ~ lookup_faults conn e) ->
  (status conn = "LISTEN" -> (exists n, process_name_of conn = Ok n) -> laddr conn <> None) ->
  collect_listening (conn :: rest) []
  = append_outcomes (Ok (listening_record conn)) (collect_listening rest []).
Proof.
  intros H Ha. cbn [collect_listening]. unfold listening_record.
  destruct (String.eqb_spec (status conn) "LISTEN") as [E|E].
  - specialize (Ha E). unfold process_name_of in *.
    destruct (truthy_pid (pid conn)) eqn:Hp.
    + destruct (owner conn) as [n|[m|m|m|m]] eqn:Ho.
      * destruct (laddr conn) as [a|]; [|exfalso; apply Ha; eauto].
        now rewrite (collect_listening_acc rest).
      * cbn [append_outcomes]. now destruct (collect_listening rest []).
      * cbn [append_outcomes]. now destruct (collect_listening rest []).
      * exfalso. apply (H (AttributeError m)). now repeat split.
      * exfalso. apply (H (OtherException m)). now repeat split.
    + destruct (laddr conn) as [a|]; [|exfalso; apply Ha; eauto].
      now rewrite (collect_listening_acc rest).
  - cbn [append_outcomes]. now destruct (collect_listening rest []).
Qed.

(** X20: when no owner lookup faults (and no found listener lacks its
    local address), the two loops over the connection table run to their
    end, and what they collect is, in the order of the table, one record
    for each connection in the state of the pass whose owner name was
    obtained: nothing else is recorded and the order is never changed. *)
Theorem collected_in_table_order :
  forall connections : list Conn,
    Forall (fun conn => forall e, ~ lookup_faults conn e) connections ->
    collect_connections connections [] = Ok (flat_map active_record connections)
    /\ (Forall (fun conn => status conn = "LISTEN" ->
                            (exists n, process_name_of conn = Ok n) ->
                            laddr conn <> None) connections ->
        collect_listening connections [] = Ok (flat_map listening_record connections)).
Proof.
  intros connections Hok. split.
  - induction Hok as [|conn rest Hc Hrest IH]; [reflexivity|].
    rewrite (collect_connections_step conn rest Hc), IH. reflexivity.
  - intros Haddr. induction Hok as [|conn rest Hc Hrest IH]; [reflexivity|].
    apply Forall_cons_iff in Haddr as [Ha Haddr].
    rewrite (collect_listening_step conn rest Hc Ha), (IH Haddr). reflexivity.
Qed.

Lemma collected_in_table_order_witness :
  collect_connections [sample_owned; sample_denied; sample_unowned; sample_time_wait] []
  = Ok (flat_map active_record
          [sample_owned; sample_denied; sample_unowned; sample_time_wait]).
Proof.
  apply (collected_in_table_order
           [sample_owned; sample_denied; sample_unowned; sample_time_wait]).
  apply Forall_forall. intros conn Hin e (Hp & Ho & He).
  cbn [In] in Hin.
  destruct Hin as [<-|[<-|[<-|[<-|[]]]]];
    first [discriminate Hp | discriminate Ho | injection Ho as <-; exact He].
Defined.
